(** * corebosgowslib: the coreBOS web-service client, embedded in Rocq

    The library exists in two variants: [src/corebosgowslib.go] keeps the
    session in package-level variables, [src/unnamed/part_000] keeps it in a
    [cbContext] value.  Both are embedded below (modules [Global] and [Ctx])
    over a common model of Go values, of the Go standard library functions
    the code calls, and of the remote server. *)

From Stdlib Require Import String Ascii List ZArith Lia.
From Stdlib Require Import Floats.PrimFloat.
From stdpp Require Import gmap strings list fin_maps.

Import ListNotations.
Set Warnings "-register-all".
Local Open Scope string_scope.
Local Open Scope Z_scope.
Local Open Scope list_scope.

(** ** Go values *)

(** What [encoding/json] decodes into an [interface{}]: [nil], [bool],
    [float64], [string], [[]interface{}] and [map[string]interface{}]. *)
Inductive JSON : Type :=
  | JNull
  | JBool (b : bool)
  | JNum (f : float)
  | JStr (s : string)
  | JArr (l : list JSON)
  | JObj (m : gmap string JSON).

(** A Go map or slice variable is either [nil] or a reference to storage. *)
Definition gomap : Type := option (gmap string JSON).
Definition slice (A : Type) : Type := option (list A).

(** Reading a [nil] map behaves like reading an empty one. *)
Definition gomap_read (m : gomap) : gmap string JSON := default ∅ m.

(** The [interface{}] value [json.Marshal] receives for a map or a slice of
    strings: a [nil] map or slice is encoded like [nil]. *)
Definition json_of_gomap (m : gomap) : JSON :=
  match m with None => JNull | Some m => JObj m end.
Definition json_of_strings (l : slice string) : JSON :=
  match l with None => JNull | Some l => JArr (JStr <$> l) end.

(** Go's [error] values, by where they come from.  [Error] is the text. *)
Inductive error : Type :=
  | errors_New (text : string)
  | net_error (text : string)
  | json_error (text : string).

Definition Error (e : error) : string :=
  match e with errors_New t | net_error t | json_error t => t end.

(** Run-time panics the code can raise. *)
Inductive panic : Type :=
  | PanicTypeAssertion
  | PanicNilMapWrite
  | PanicSliceBounds.

Inductive Res (A : Type) : Type :=
  | Ret (a : A)
  | Panic (p : panic).
Arguments Ret {A} a.
Arguments Panic {A} p.

(** ** net/url *)

Definition url_Values : Type := gmap string (list string).

Definition Values_Get (v : url_Values) (key : string) : string :=
  match v !! key with
  | Some (x :: _) => x
  | _ => ""
  end.

Definition Values_Set (v : url_Values) (key value : string) : url_Values :=
  <[key := [value]]> v.

(** ** Standard library functions taken as given

    [crypto/md5], [encoding/json.Marshal] and [strings.ToUpper] are not part
    of the repository.  [json_Marshal] returns the text [string(vals)] of
    the code, which is empty when marshalling fails (the code drops the
    error). *)
Class GoLib : Type := {
  md5_Sum : string -> list ascii;
  md5_Size : forall text, length (md5_Sum text) = 16%nat;
  json_Marshal : JSON -> string;
  strings_ToUpper : string -> string;
  ToUpper_POST : strings_ToUpper "POST" = "POST";
  ToUpper_GET : strings_ToUpper "GET" = "GET";
}.

(** ** encoding/hex *)

Definition hextable : string := "0123456789abcdef".

(** [hextable[i]]; the index is a nibble, always in range. *)
Definition hexdigit (i : N) : ascii :=
  nth (N.to_nat i) (list_ascii_of_string hextable) "0"%char.

Fixpoint hex_EncodeToString (src : list ascii) : string :=
  match src with
  | [] => ""
  | b :: src' =>
      String (hexdigit (N.shiftr (N_of_ascii b) 4))
        (String (hexdigit (N.land (N_of_ascii b) 15)) (hex_EncodeToString src'))
  end.

(** ** strings.Trim, for a cutset of ASCII characters (bytes) *)

Definition in_cutset (cutset : string) (c : ascii) : bool :=
  existsb (Ascii.eqb c) (list_ascii_of_string cutset).

Fixpoint trimLeftASCII (s : list ascii) (cutset : string) : list ascii :=
  match s with
  | [] => []
  | c :: s' => if in_cutset cutset c then trimLeftASCII s' cutset else s
  end.

Definition trimRightASCII (s : list ascii) (cutset : string) : list ascii :=
  rev (trimLeftASCII (rev s) cutset).

Definition strings_Trim (s cutset : string) : string :=
  string_of_list_ascii
    (trimLeftASCII (trimRightASCII (list_ascii_of_string s) cutset) cutset).

(** ** The remote server and the Go run time *)

Inductive httpMethod : Type := GET | POST.

(** An HTTP request as [docbCall] issues it: the method, the target
    [cbURL] and the form values it encodes (as the query string of a GET,
    as the body of a POST). *)
Record Request : Type := mkRequest {
  req_method : httpMethod;
  req_url : string;
  req_form : url_Values;
}.

(** What comes back from one call, as far as [docbCall] looks at it. *)
Inductive Response : Type :=
  | RespNetErr (err : error)
      (* netClient.Get/Post or ioutil.ReadAll failed (also the 10s timeout) *)
  | RespBadJSON (e : error)
      (* the body was read, json.Unmarshal failed *)
  | RespJSON (dat : gmap string JSON).
      (* the body decoded into dat; a nil dat (body null) reads as empty *)

(** The world outside the library: the answers the server will give, the
    requests sent so far, and the choices the run time will make for the
    iteration order of each [range] over a map. *)
Record World : Type := mkWorld {
  pending : list Response;
  sent : list Request;
  mapiter : list (list nat);
}.

Definition errTimeout : error := net_error "Client.Timeout exceeded while awaiting headers".

Definition next_response (w : World) : Response :=
  match pending w with
  | [] => RespNetErr errTimeout
  | r :: _ => r
  end.

Definition exchange (req : Request) (w : World) : Response * World :=
  (next_response w,
   {| pending := tail (pending w); sent := sent w ++ [req]; mapiter := mapiter w |}).

(** [range] over a Go map visits every key once, in an order the run time
    chooses.  The order is built from the world's next choice list by
    successive insertions, so every permutation can occur. *)
Fixpoint insert_at {A} (n : nat) (x : A) (l : list A) : list A :=
  match n, l with
  | S n', y :: l' => y :: insert_at n' x l'
  | _, _ => x :: l
  end.

Fixpoint shuffle {A} (choice : list nat) (l : list A) : list A :=
  match l with
  | [] => []
  | x :: l' => insert_at (hd 0%nat choice) x (shuffle (tail choice) l')
  end.

Definition range_map {V} (m : gmap string V) (w : World) : list (string * V) * World :=
  (shuffle (hd [] (mapiter w)) (map_to_list m),
   {| pending := pending w; sent := sent w; mapiter := tail (mapiter w) |}).

(** ** Session data, shared by both variants *)

Record cbConnectionType : Type := mkConnection {
  servertime : float;
  expiretime : string;
  token : string;
  serviceuser : string;
  servicekey : string;
  sessionid : string;
  userid : string;
}.

Definition zeroConnection : cbConnectionType :=
  {| servertime := 0%float; expiretime := ""; token := ""; serviceuser := "";
     servicekey := ""; sessionid := ""; userid := "" |}.

(** ** Computations: state of the package, the world, and panics *)

Section Monad.
Context {S : Type}.

Definition M (A : Type) : Type := S -> World -> Res A * S * World.

Definition ret {A} (a : A) : M A := fun s w => (Ret a, s, w).

Definition bind {A B} (m : M A) (k : A -> M B) : M B :=
  fun s w =>
    match m s w with
    | (Ret a, s', w') => k a s' w'
    | (Panic p, s', w') => (Panic p, s', w')
    end.

Definition throw {A} (p : panic) : M A := fun s w => (Panic p, s, w).
Definition lift {A} (r : Res A) : M A := fun s w => (r, s, w).
Definition get : M S := fun s w => (Ret s, s, w).
Definition modify (f : S -> S) : M unit := fun s w => (Ret tt, f s, w).
Definition world {A} (f : World -> A * World) : M A :=
  fun s w => let '(a, w') := f w in (Ret a, s, w').
End Monad.
Arguments M S A : clear implicits.

Declare Scope go_scope.
Delimit Scope go_scope with go.
Notation "'let*' x ':=' m 'in' k" := (bind m (fun x => k))
  (at level 10, x pattern, m at level 99, k at level 200) : go_scope.
Notation "m ;;; k" := (bind m (fun _ => k))
  (at level 100, right associativity) : go_scope.
Local Open Scope go_scope.

(** Type assertions [x.(T)] on a map entry: they panic when the entry is
    missing ([nil]) or holds another type. *)
Definition assert_map (x : option JSON) : Res (gmap string JSON) :=
  match x with Some (JObj m) => Ret m | _ => Panic PanicTypeAssertion end.
Definition assert_string (x : option JSON) : Res string :=
  match x with Some (JStr s) => Ret s | _ => Panic PanicTypeAssertion end.
Definition assert_float64 (x : option JSON) : Res float :=
  match x with Some (JNum f) => Ret f | _ => Panic PanicTypeAssertion end.
Definition assert_bool (x : option JSON) : Res bool :=
  match x with Some (JBool b) => Ret b | _ => Panic PanicTypeAssertion end.
Definition assert_slice (x : option JSON) : Res (list JSON) :=
  match x with Some (JArr l) => Ret l | _ => Panic PanicTypeAssertion end.

(** [dat["success"] == true] *)
Definition is_true (x : option JSON) : bool :=
  match x with Some (JBool true) => true | _ => false end.

(** [e == nil] *)
Definition is_nil (e : option error) : bool :=
  match e with None => true | Some _ => false end.

(** [errors.New(wserr["code"].(string) + ": " + wserr["message"].(string))]
    for [wserr := dat["error"].(map[string]interface{})]. *)
Definition wsError (dat : gmap string JSON) : Res error :=
  match assert_map (dat !! "error") with
  | Panic p => Panic p
  | Ret wserr =>
      match assert_string (wserr !! "code") with
      | Panic p => Panic p
      | Ret code =>
          match assert_string (wserr !! "message") with
          | Panic p => Panic p
          | Ret message => Ret (errors_New (code +:+ ": " +:+ message))
          end
      end
  end.

(** The part of [docbCall] that does not depend on where [cbURL] lives:
    a POST when [strings.ToUpper(typeofcall[0:]) == "POST"], a GET otherwise. *)
Definition http_method `{GoLib} (typeofcall : string) : httpMethod :=
  if String.eqb (strings_ToUpper typeofcall) "POST" then POST else GET.

(** What [docbCall] returns for each way the call can end. *)
Definition answer (resp : Response) : bool * gmap string JSON * option error :=
  match resp with
  | RespNetErr err => (false, ∅, Some err)
  | RespBadJSON e => (true, ∅, Some e)
  | RespJSON dat => (true, dat, None)
  end.

Definition httpCall `{GoLib} (cbURL typeofcall : string) (params : url_Values)
    (w : World) : (bool * gmap string JSON * option error) * World :=
  let '(resp, w') := exchange (mkRequest (http_method typeofcall) cbURL params) w in
  (answer resp, w').

Definition getMD5Hash `{GoLib} (text : string) : string :=
  hex_EncodeToString (md5_Sum text).


(** The loop of [DoListTypes]:
    [for _, mod := range ... { mname := mod.(string); types[mname] = mname }] *)
Fixpoint listTypes_loop (mods : list JSON) (types : gmap string string)
    : Res (gmap string string) :=
  match mods with
  | [] => Ret types
  | mod_ :: mods' =>
      match assert_string (Some mod_) with
      | Panic p => Panic p
      | Ret mname => listTypes_loop mods' (<[mname := mname]> types)
      end
  end.

(** The loop of [DoInvoke]:
    [for idx, val := range params { if v.Get(idx) == "" { v.Set(idx, val.(string)) } }] *)
Fixpoint invoke_loop (params : list (string * JSON)) (v : url_Values)
    : Res url_Values :=
  match params with
  | [] => Ret v
  | (idx, val) :: params' =>
      if String.eqb (Values_Get v idx) ""
      then match assert_string (Some val) with
           | Panic p => Panic p
           | Ret str => invoke_loop params' (Values_Set v idx str)
           end
      else invoke_loop params' v
  end.

(** The loop of [DoQuery]:
    [idx := 0; for col := range row { columns[idx] = col; idx++ }] *)
Fixpoint columns_loop (cols : list string) (idx : Z) (columns : gmap Z string)
    : gmap Z string :=
  match cols with
  | [] => columns
  | col :: cols' => columns_loop cols' (idx + 1) (<[idx := col]> columns)
  end.

(** [cburl[len(cburl)-1:] == "/"]; slicing the empty string from -1 panics. *)
Definition last_is_slash (cburl : string) : Res bool :=
  match rev (list_ascii_of_string cburl) with
  | [] => Panic PanicSliceBounds
  | c :: _ => Ret (Ascii.eqb c "/")
  end.


(** ** The API as data: calls and what they hand back *)

Inductive Call : Type :=
  | CSetURL (cburl : string)
  | CChallenge (username : string)
  | CLogin (username userAccesskey : string) (withpassword : bool)
  | CLogout
  | CQuery (query : string)
  | CGetResultColumns
  | CListTypes (fieldTypeList : slice string)
  | CDescribe (module : string)
  | CRetrieve (record : string)
  | CCreate (module : string) (valuemap : gomap)
  | CUpdate (module : string) (valuemap : gomap)
  | CRevise (module : string) (valuemap : gomap)
  | CDelete (record : string)
  | CInvoke (method : string) (params : gomap) (typeofcall : string)
  | CGetRelatedRecords (record module relatedModule : string) (queryParameters : gomap)
  | CSetRelated (relateThisID : string) (withTheseIds : slice string)
  | CLoginPage (template language csrf : string).

Inductive Value : Type :=
  | VNone
  | VBool (ok : bool) (err : option error)
  | VIface (r : JSON) (err : option error)
  | VTypes (r : gmap string string) (err : option error)
  | VMap (r : gmap string JSON) (err : option error)
  | VWrite (valuemap : gomap) (r : gmap string JSON) (err : option error)
  | VSlice (r : slice JSON) (err : option error)
  | VString (r : string) (err : option error)
  | VColumns (cols : gmap Z string).

(** * The variant with package-level state ([src/corebosgowslib.go]) *)
Module Global.

(** The package's variables; [netClient] is part of the world. *)
Record Package : Type := mkPackage {
  cbConnection : cbConnectionType;
  cbURL : string;
  queryRestulColumns : gmap Z string;
}.

Definition init : Package :=
  {| cbConnection := zeroConnection; cbURL := "/webservice.php";
     queryRestulColumns := ∅ |}.

Definition getConnection : M Package cbConnectionType :=
  let* s := get in ret (cbConnection s).
Definition getURL : M Package string :=
  let* s := get in ret (cbURL s).
Definition getColumns : M Package (gmap Z string) :=
  let* s := get in ret (queryRestulColumns s).
Definition setConnection (f : cbConnectionType -> cbConnectionType) : M Package unit :=
  modify (fun s => mkPackage (f (cbConnection s)) (cbURL s) (queryRestulColumns s)).
Definition setURL (url : string) : M Package unit :=
  modify (fun s => mkPackage (cbConnection s) url (queryRestulColumns s)).
Definition setColumns (f : gmap Z string -> gmap Z string) : M Package unit :=
  modify (fun s => mkPackage (cbConnection s) (cbURL s) (f (queryRestulColumns s))).

Section WithGoLib.
Context `{GoLib}.

Definition SetURL (cburl : string) : M Package unit :=
  let* slash := lift (last_is_slash cburl) in
  if slash
  then setURL (cburl +:+ "webservice.php")
  else setURL (cburl +:+ "/webservice.php").

Definition docbCall (typeofcall : string) (params : url_Values)
    : M Package (bool * gmap string JSON * option error) :=
  let* cbURL := getURL in
  world (httpCall cbURL typeofcall params).

Definition doChallenge (username : string) : M Package (bool * option error) :=
  let v : url_Values :=
    {[ "operation" := ["getchallenge"]; "username" := [username] ]} in
  let* (_, dat, e) := docbCall "GET" v in
  if is_nil e && is_true (dat !! "success") then
    let* rdo := lift (assert_map (dat !! "result")) in
    let* x := lift (assert_float64 (rdo !! "serverTime")) in
    setConnection (fun c => mkConnection x (expiretime c) (token c)
      (serviceuser c) (servicekey c) (sessionid c) (userid c)) ;;;
    let* x := lift (assert_string (rdo !! "expireTime")) in
    setConnection (fun c => mkConnection (servertime c) x (token c)
      (serviceuser c) (servicekey c) (sessionid c) (userid c)) ;;;
    let* x := lift (assert_string (rdo !! "token")) in
    setConnection (fun c => mkConnection (servertime c) (expiretime c) x
      (serviceuser c) (servicekey c) (sessionid c) (userid c)) ;;;
    ret (true, None)
  else ret (false, e).

Definition DoLogin (username userAccesskey : string) (withpassword : bool)
    : M Package (bool * option error) :=
  let* (dc, err) := doChallenge username in
  if negb dc then ret (false, err) else
  let v : url_Values :=
    {[ "operation" := ["login"]; "username" := [username] ]} in
  let* conn := getConnection in
  let v :=
    if withpassword
    then Values_Set v "accessKey" (token conn +:+ userAccesskey)
    else Values_Set v "accessKey" (getMD5Hash (token conn +:+ userAccesskey)) in
  let* (_, dat, e) := docbCall "POST" v in
  if is_nil e && is_true (dat !! "success") then
    let* rdo := lift (assert_map (dat !! "result")) in
    setConnection (fun c => mkConnection (servertime c) (expiretime c) (token c)
      username (servicekey c) (sessionid c) (userid c)) ;;;
    setConnection (fun c => mkConnection (servertime c) (expiretime c) (token c)
      (serviceuser c) userAccesskey (sessionid c) (userid c)) ;;;
    let* x := lift (assert_string (rdo !! "sessionName")) in
    setConnection (fun c => mkConnection (servertime c) (expiretime c) (token c)
      (serviceuser c) (servicekey c) x (userid c)) ;;;
    let* x := lift (assert_string (rdo !! "userId")) in
    setConnection (fun c => mkConnection (servertime c) (expiretime c) (token c)
      (serviceuser c) (servicekey c) (sessionid c) x) ;;;
    ret (true, None)
  else if is_nil e then
    let* wserr := lift (wsError dat) in
    ret (false, Some wserr)
  else ret (false, e).

Definition DoLogout : M Package (bool * option error) :=
  let* conn := getConnection in
  let v : url_Values :=
    {[ "operation" := ["logout"]; "sessionName" := [sessionid conn] ]} in
  let* (_, dat, e) := docbCall "POST" v in
  if is_nil e && is_true (dat !! "success") then ret (true, None)
  else if is_nil e then
    let* wserr := lift (wsError dat) in
    ret (false, Some wserr)
  else ret (false, e).

Definition DoQuery (query : string) : M Package (JSON * option error) :=
  let q := strings_Trim query " ;" +:+ ";" in
  let* conn := getConnection in
  let v : url_Values :=
    {[ "operation" := ["query"]; "sessionName" := [sessionid conn];
       "query" := [q] ]} in
  let* (_, dat, e) := docbCall "GET" v in
  if is_nil e && is_true (dat !! "success") then
    let* rdos := lift (assert_slice (dat !! "result")) in
    match rdos with
    | rdos0 :: _ =>
        let* row := lift (assert_map (Some rdos0)) in
        let* cols := world (range_map row) in
        setColumns (columns_loop (fst <$> cols) 0)
    | [] => setColumns (fun _ => ∅)
    end ;;;
    ret (JArr rdos, None)
  else
    let empty := JObj ∅ in
    if is_nil e then
      let* wserr := lift (wsError dat) in
      ret (empty, Some wserr)
    else ret (empty, e).

Definition GetResultColumns : M Package (gmap Z string) := getColumns.

Definition DoListTypes (fieldTypeList : slice string)
    : M Package (gmap string string * option error) :=
  let ftl := json_Marshal (json_of_strings fieldTypeList) in
  let* conn := getConnection in
  let v : url_Values :=
    {[ "operation" := ["listtypes"]; "sessionName" := [sessionid conn];
       "fieldTypeList" := [ftl] ]} in
  let* (_, dat, e) := docbCall "GET" v in
  if is_nil e && is_true (dat !! "success") then
    let* rdos := lift (assert_map (dat !! "result")) in
    let* mods := lift (assert_slice (rdos !! "types")) in
    let* types := lift (listTypes_loop mods ∅) in
    ret (types, None)
  else
    let empty : gmap string string := ∅ in
    if is_nil e then
      let* wserr := lift (wsError dat) in
      ret (empty, Some wserr)
    else ret (empty, e).

Definition DoDescribe (module : string)
    : M Package (gmap string JSON * option error) :=
  let* conn := getConnection in
  let v : url_Values :=
    {[ "operation" := ["describe"]; "sessionName" := [sessionid conn];
       "elementType" := [module] ]} in
  let* (_, dat, e) := docbCall "GET" v in
  if is_nil e && is_true (dat !! "success") then
    let* rdo := lift (assert_map (dat !! "result")) in
    ret (rdo, None)
  else
    let empty : gmap string JSON := ∅ in
    if is_nil e then
      let* wserr := lift (wsError dat) in
      ret (empty, Some wserr)
    else ret (empty, e).

Definition DoRetrieve (record : string)
    : M Package (gmap string JSON * option error) :=
  let* conn := getConnection in
  let v : url_Values :=
    {[ "operation" := ["retrieve"]; "sessionName" := [sessionid conn];
       "id" := [record] ]} in
  let* (_, dat, e) := docbCall "GET" v in
  if is_nil e && is_true (dat !! "success") then
    let* rdo := lift (assert_map (dat !! "result")) in
    ret (rdo, None)
  else
    let empty : gmap string JSON := ∅ in
    if is_nil e then
      let* wserr := lift (wsError dat) in
      ret (empty, Some wserr)
    else ret (empty, e).

(** [DoCreate], [DoUpdate] and [DoRevise] write into the map the caller
    passed (Go maps are references): the first component of the result is
    that map as the caller finds it afterwards.  Writing into a [nil] map
    panics. *)
Definition DoCreate (module : string) (valuemap : gomap)
    : M Package (gomap * gmap string JSON * option error) :=
  let* conn := getConnection in
  let* valuemap :=
    match valuemap with
    | Some m =>
        match m !! "assigned_user_id" with
        | Some _ => ret (Some m)
        | None => ret (Some (<["assigned_user_id" := JStr (userid conn)]> m))
        end
    | None => throw PanicNilMapWrite
    end in
  let vals := json_Marshal (json_of_gomap valuemap) in
  let v : url_Values :=
    {[ "operation" := ["create"]; "sessionName" := [sessionid conn];
       "elementType" := [module]; "element" := [vals] ]} in
  let* (_, dat, e) := docbCall "POST" v in
  if is_nil e && is_true (dat !! "success") then
    let* rdo := lift (assert_map (dat !! "result")) in
    ret (valuemap, rdo, None)
  else
    let empty : gmap string JSON := ∅ in
    if is_nil e then
      let* wserr := lift (wsError dat) in
      ret (valuemap, empty, Some wserr)
    else ret (valuemap, empty, e).

Definition DoUpdate (module : string) (valuemap : gomap)
    : M Package (gomap * gmap string JSON * option error) :=
  let* conn := getConnection in
  let* valuemap :=
    match valuemap with
    | Some m =>
        match m !! "assigned_user_id" with
        | Some _ => ret (Some m)
        | None => ret (Some (<["assigned_user_id" := JStr (userid conn)]> m))
        end
    | None => throw PanicNilMapWrite
    end in
  let vals := json_Marshal (json_of_gomap valuemap) in
  let v : url_Values :=
    {[ "operation" := ["update"]; "sessionName" := [sessionid conn];
       "elementType" := [module]; "element" := [vals] ]} in
  let* (_, dat, e) := docbCall "POST" v in
  if is_nil e && is_true (dat !! "success") then
    let* rdo := lift (assert_map (dat !! "result")) in
    ret (valuemap, rdo, None)
  else
    let empty : gmap string JSON := ∅ in
    if is_nil e then
      let* wserr := lift (wsError dat) in
      ret (valuemap, empty, Some wserr)
    else ret (valuemap, empty, e).

Definition DoRevise (module : string) (valuemap : gomap)
    : M Package (gomap * gmap string JSON * option error) :=
  let* conn := getConnection in
  let* valuemap :=
    match valuemap with
    | Some m =>
        match m !! "assigned_user_id" with
        | Some _ => ret (Some m)
        | None => ret (Some (<["assigned_user_id" := JStr (userid conn)]> m))
        end
    | None => throw PanicNilMapWrite
    end in
  let vals := json_Marshal (json_of_gomap valuemap) in
  let v : url_Values :=
    {[ "operation" := ["revise"]; "sessionName" := [sessionid conn];
       "elementType" := [module]; "element" := [vals] ]} in
  let* (_, dat, e) := docbCall "POST" v in
  if is_nil e && is_true (dat !! "success") then
    let* rdo := lift (assert_map (dat !! "result")) in
    ret (valuemap, rdo, None)
  else
    let empty : gmap string JSON := ∅ in
    if is_nil e then
      let* wserr := lift (wsError dat) in
      ret (valuemap, empty, Some wserr)
    else ret (valuemap, empty, e).

Definition DoDelete (record : string) : M Package (bool * option error) :=
  let* conn := getConnection in
  let v : url_Values :=
    {[ "operation" := ["delete"]; "sessionName" := [sessionid conn];
       "id" := [record] ]} in
  let* (_, dat, e) := docbCall "POST" v in
  if is_nil e && is_true (dat !! "success") then
    let* rdo := lift (assert_map (dat !! "result")) in
    let* status := lift (assert_string (rdo !! "status")) in
    if String.eqb status "successful"
    then ret (true, None)
    else ret (false, Some (errors_New "Unexpected DELETE error"))
  else if is_nil e then
    let* wserr := lift (wsError dat) in
    ret (false, Some wserr)
  else ret (false, e).

Definition DoInvoke (method : string) (params : gomap) (typeofcall : string)
    : M Package (gmap string JSON * option error) :=
  let* conn := getConnection in
  let v : url_Values :=
    {[ "operation" := [method]; "sessionName" := [sessionid conn] ]} in
  let* entries := world (range_map (gomap_read params)) in
  let* v := lift (invoke_loop entries v) in
  let* (_, dat, e) := docbCall typeofcall v in
  if is_nil e && is_true (dat !! "success") then
    let* rdo := lift (assert_map (dat !! "result")) in
    ret (rdo, None)
  else
    let empty : gmap string JSON := ∅ in
    if is_nil e then
      let* wserr := lift (wsError dat) in
      ret (empty, Some wserr)
    else ret (empty, e).

Definition DoGetRelatedRecords (record module relatedModule : string)
    (queryParameters : gomap) : M Package (slice JSON * option error) :=
  let params := json_Marshal (json_of_gomap queryParameters) in
  let* conn := getConnection in
  let v : url_Values :=
    {[ "operation" := ["getRelatedRecords"];
       "sessionName" := [sessionid conn];
       "id" := [record]; "module" := [module];
       "relatedModule" := [relatedModule]; "queryParameters" := [params] ]} in
  let* (_, dat, e) := docbCall "POST" v in
  if is_nil e && is_true (dat !! "success") then
    let* rdo := lift (assert_map (dat !! "result")) in
    let* records := lift (assert_slice (rdo !! "records")) in
    ret (Some records, None)
  else
    let empty : slice JSON := None in
    if is_nil e then
      let* wserr := lift (wsError dat) in
      ret (empty, Some wserr)
    else ret (empty, e).

Definition DoSetRelated (relateThisID : string) (withTheseIds : slice string)
    : M Package (bool * option error) :=
  let params := json_Marshal (json_of_strings withTheseIds) in
  let* conn := getConnection in
  let v : url_Values :=
    {[ "operation" := ["SetRelation"];
       "sessionName" := [sessionid conn];
       "relate_this_id" := [relateThisID]; "with_these_ids" := [params] ]} in
  let* (_, dat, e) := docbCall "POST" v in
  if is_nil e && is_true (dat !! "success") then
    let* b := lift (assert_bool (dat !! "result")) in
    ret (b, None)
  else if is_nil e then
    let* wserr := lift (wsError dat) in
    ret (false, Some wserr)
  else ret (false, e).

Definition DoLoginPage (template language csrf : string)
    : M Package (string * option error) :=
  let* conn := getConnection in
  let v : url_Values :=
    {[ "operation" := ["getLoginPage"];
       "sessionName" := [sessionid conn];
       "template" := [template]; "language" := [language]; "csrf" := [csrf] ]} in
  let* (_, dat, e) := docbCall "GET" v in
  if is_nil e && is_true (dat !! "success") then
    let* page := lift (assert_string (dat !! "result")) in
    ret (page, None)
  else if is_nil e then
    let* wserr := lift (wsError dat) in
    ret ("", Some wserr)
  else ret ("", e).

(** One call of the API, as a caller observes it. *)
Definition exec (c : Call) : M Package Value :=
  match c with
  | CSetURL cburl => SetURL cburl ;;; ret VNone
  | CChallenge username =>
      let* (ok, err) := doChallenge username in ret (VBool ok err)
  | CLogin username userAccesskey withpassword =>
      let* (ok, err) := DoLogin username userAccesskey withpassword in
      ret (VBool ok err)
  | CLogout => let* (ok, err) := DoLogout in ret (VBool ok err)
  | CQuery query => let* (r, err) := DoQuery query in ret (VIface r err)
  | CGetResultColumns => let* cols := GetResultColumns in ret (VColumns cols)
  | CListTypes l => let* (r, err) := DoListTypes l in ret (VTypes r err)
  | CDescribe module => let* (r, err) := DoDescribe module in ret (VMap r err)
  | CRetrieve record => let* (r, err) := DoRetrieve record in ret (VMap r err)
  | CCreate module valuemap =>
      let* (arg, r, err) := DoCreate module valuemap in ret (VWrite arg r err)
  | CUpdate module valuemap =>
      let* (arg, r, err) := DoUpdate module valuemap in ret (VWrite arg r err)
  | CRevise module valuemap =>
      let* (arg, r, err) := DoRevise module valuemap in ret (VWrite arg r err)
  | CDelete record => let* (ok, err) := DoDelete record in ret (VBool ok err)
  | CInvoke method params typeofcall =>
      let* (r, err) := DoInvoke method params typeofcall in ret (VMap r err)
  | CGetRelatedRecords record module relatedModule queryParameters =>
      let* (r, err) :=
        DoGetRelatedRecords record module relatedModule queryParameters in
      ret (VSlice r err)
  | CSetRelated relateThisID withTheseIds =>
      let* (ok, err) := DoSetRelated relateThisID withTheseIds in
      ret (VBool ok err)
  | CLoginPage template language csrf =>
      let* (page, err) := DoLoginPage template language csrf in
      ret (VString page err)
  end.

(** A caller making the calls one after the other; a panic ends the run. *)
Fixpoint run (calls : list Call) (s : Package) (w : World)
    : list (Res Value) * Package * World :=
  match calls with
  | [] => ([], s, w)
  | c :: calls' =>
      match exec c s w with
      | (Ret v, s', w') =>
          let '(outs, s'', w'') := run calls' s' w' in (Ret v :: outs, s'', w'')
      | (Panic p, s', w') => ([Panic p], s', w')
      end
  end.

End WithGoLib.

End Global.

(** * The variant with a session context ([src/unnamed/part_000]) *)
Module Ctx.

Record cbContext : Type := mkContext {
  cbConnection : cbConnectionType;
  queryResultColumns : gmap Z string;
}.

Definition GetCbContext : cbContext :=
  {| cbConnection := zeroConnection; queryResultColumns := ∅ |}.

(** The package variable [cbURL] and the context the methods are called on
    (the receiver [cbCtx], a pointer to a context made by [GetCbContext]). *)
Record State : Type := mkState {
  cbURL : string;
  cbCtx : cbContext;
}.

Definition init : State :=
  {| cbURL := "/webservice.php"; cbCtx := GetCbContext |}.

Definition getConnection : M State cbConnectionType :=
  let* s := get in ret (cbConnection (cbCtx s)).
Definition getURL : M State string :=
  let* s := get in ret (cbURL s).
Definition getColumns : M State (gmap Z string) :=
  let* s := get in ret (queryResultColumns (cbCtx s)).
Definition setConnection (f : cbConnectionType -> cbConnectionType) : M State unit :=
  modify (fun s => mkState (cbURL s)
    (mkContext (f (cbConnection (cbCtx s))) (queryResultColumns (cbCtx s)))).
Definition setURL (url : string) : M State unit :=
  modify (fun s => mkState url (cbCtx s)).
Definition setColumns (f : gmap Z string -> gmap Z string) : M State unit :=
  modify (fun s => mkState (cbURL s)
    (mkContext (cbConnection (cbCtx s)) (f (queryResultColumns (cbCtx s))))).

Definition GetServerTime : M State float :=
  let* conn := getConnection in ret (servertime conn).
Definition GetExpireTime : M State string :=
  let* conn := getConnection in ret (expiretime conn).
Definition GetToken : M State string :=
  let* conn := getConnection in ret (token conn).
Definition GetServiceUser : M State string :=
  let* conn := getConnection in ret (serviceuser conn).
Definition GetServiceKey : M State string :=
  let* conn := getConnection in ret (servicekey conn).
Definition GetSessionId : M State string :=
  let* conn := getConnection in ret (sessionid conn).
Definition GetUserId : M State string :=
  let* conn := getConnection in ret (userid conn).

Section WithGoLib.
Context `{GoLib}.

Definition SetURL (cburl : string) : M State unit :=
  let* slash := lift (last_is_slash cburl) in
  if slash
  then setURL (cburl +:+ "webservice.php")
  else setURL (cburl +:+ "/webservice.php").

Definition docbCall (typeofcall : string) (params : url_Values)
    : M State (bool * gmap string JSON * option error) :=
  let* cbURL := getURL in
  world (httpCall cbURL typeofcall params).

Definition doChallenge (username : string) : M State (bool * option error) :=
  let v : url_Values :=
    {[ "operation" := ["getchallenge"]; "username" := [username] ]} in
  let* (_, dat, e) := docbCall "GET" v in
  if is_nil e && is_true (dat !! "success") then
    let* rdo := lift (assert_map (dat !! "result")) in
    let* x := lift (assert_float64 (rdo !! "serverTime")) in
    setConnection (fun c => mkConnection x (expiretime c) (token c)
      (serviceuser c) (servicekey c) (sessionid c) (userid c)) ;;;
    let* x := lift (assert_string (rdo !! "expireTime")) in
    setConnection (fun c => mkConnection (servertime c) x (token c)
      (serviceuser c) (servicekey c) (sessionid c) (userid c)) ;;;
    let* x := lift (assert_string (rdo !! "token")) in
    setConnection (fun c => mkConnection (servertime c) (expiretime c) x
      (serviceuser c) (servicekey c) (sessionid c) (userid c)) ;;;
    ret (true, None)
  else ret (false, e).

Definition DoLogin (username userAccesskey : string) (withpassword : bool)
    : M State (bool * option error) :=
  let* (dc, err) := doChallenge username in
  if negb dc then ret (false, err) else
  let v : url_Values :=
    {[ "operation" := ["login"]; "username" := [username] ]} in
  let* conn := getConnection in
  let v :=
    if withpassword
    then Values_Set v "accessKey" (token conn +:+ userAccesskey)
    else Values_Set v "accessKey" (getMD5Hash (token conn +:+ userAccesskey)) in
  let* (_, dat, e) := docbCall "POST" v in
  if is_nil e && is_true (dat !! "success") then
    let* rdo := lift (assert_map (dat !! "result")) in
    setConnection (fun c => mkConnection (servertime c) (expiretime c) (token c)
      username (servicekey c) (sessionid c) (userid c)) ;;;
    setConnection (fun c => mkConnection (servertime c) (expiretime c) (token c)
      (serviceuser c) userAccesskey (sessionid c) (userid c)) ;;;
    let* x := lift (assert_string (rdo !! "sessionName")) in
    setConnection (fun c => mkConnection (servertime c) (expiretime c) (token c)
      (serviceuser c) (servicekey c) x (userid c)) ;;;
    let* x := lift (assert_string (rdo !! "userId")) in
    setConnection (fun c => mkConnection (servertime c) (expiretime c) (token c)
      (serviceuser c) (servicekey c) (sessionid c) x) ;;;
    ret (true, None)
  else if is_nil e then
    let* wserr := lift (wsError dat) in
    ret (false, Some wserr)
  else ret (false, e).

Definition DoLogout : M State (bool * option error) :=
  let* conn := getConnection in
  let v : url_Values :=
    {[ "operation" := ["logout"]; "sessionName" := [sessionid conn] ]} in
  let* (_, dat, e) := docbCall "POST" v in
  if is_nil e && is_true (dat !! "success") then ret (true, None)
  else if is_nil e then
    let* wserr := lift (wsError dat) in
    ret (false, Some wserr)
  else ret (false, e).

Definition DoQuery (query : string) : M State (JSON * option error) :=
  let q := strings_Trim query " ;" +:+ ";" in
  let* conn := getConnection in
  let v : url_Values :=
    {[ "operation" := ["query"]; "sessionName" := [sessionid conn];
       "query" := [q] ]} in
  let* (_, dat, e) := docbCall "GET" v in
  if is_nil e && is_true (dat !! "success") then
    let* rdos := lift (assert_slice (dat !! "result")) in
    match rdos with
    | rdos0 :: _ =>
        let* row := lift (assert_map (Some rdos0)) in
        let* cols := world (range_map row) in
        setColumns (columns_loop (fst <$> cols) 0)
    | [] => setColumns (fun _ => ∅)
    end ;;;
    ret (JArr rdos, None)
  else
    let empty := JObj ∅ in
    if is_nil e then
      let* wserr := lift (wsError dat) in
      ret (empty, Some wserr)
    else ret (empty, e).

Definition GetResultColumns : M State (gmap Z string) := getColumns.

Definition DoListTypes (fieldTypeList : slice string)
    : M State (gmap string string * option error) :=
  let ftl := json_Marshal (json_of_strings fieldTypeList) in
  let* conn := getConnection in
  let v : url_Values :=
    {[ "operation" := ["listtypes"]; "sessionName" := [sessionid conn];
       "fieldTypeList" := [ftl] ]} in
  let* (_, dat, e) := docbCall "GET" v in
  if is_nil e && is_true (dat !! "success") then
    let* rdos := lift (assert_map (dat !! "result")) in
    let* mods := lift (assert_slice (rdos !! "types")) in
    let* types := lift (listTypes_loop mods ∅) in
    ret (types, None)
  else
    let empty : gmap string string := ∅ in
    if is_nil e then
      let* wserr := lift (wsError dat) in
      ret (empty, Some wserr)
    else ret (empty, e).

Definition DoDescribe (module : string)
    : M State (gmap string JSON * option error) :=
  let* conn := getConnection in
  let v : url_Values :=
    {[ "operation" := ["describe"]; "sessionName" := [sessionid conn];
       "elementType" := [module] ]} in
  let* (_, dat, e) := docbCall "GET" v in
  if is_nil e && is_true (dat !! "success") then
    let* rdo := lift (assert_map (dat !! "result")) in
    ret (rdo, None)
  else
    let empty : gmap string JSON := ∅ in
    if is_nil e then
      let* wserr := lift (wsError dat) in
      ret (empty, Some wserr)
    else ret (empty, e).

Definition DoRetrieve (record : string)
    : M State (gmap string JSON * option error) :=
  let* conn := getConnection in
  let v : url_Values :=
    {[ "operation" := ["retrieve"]; "sessionName" := [sessionid conn];
       "id" := [record] ]} in
  let* (_, dat, e) := docbCall "GET" v in
  if is_nil e && is_true (dat !! "success") then
    let* rdo := lift (assert_map (dat !! "result")) in
    ret (rdo, None)
  else
    let empty : gmap string JSON := ∅ in
    if is_nil e then
      let* wserr := lift (wsError dat) in
      ret (empty, Some wserr)
    else ret (empty, e).

(** [DoCreate], [DoUpdate] and [DoRevise] write into the map the caller
    passed (Go maps are references): the first component of the result is
    that map as the caller finds it afterwards.  Writing into a [nil] map
    panics. *)
Definition DoCreate (module : string) (valuemap : gomap)
    : M State (gomap * gmap string JSON * option error) :=
  let* conn := getConnection in
  let* valuemap :=
    match valuemap with
    | Some m =>
        match m !! "assigned_user_id" with
        | Some _ => ret (Some m)
        | None => ret (Some (<["assigned_user_id" := JStr (userid conn)]> m))
        end
    | None => throw PanicNilMapWrite
    end in
  let vals := json_Marshal (json_of_gomap valuemap) in
  let v : url_Values :=
    {[ "operation" := ["create"]; "sessionName" := [sessionid conn];
       "elementType" := [module]; "element" := [vals] ]} in
  let* (_, dat, e) := docbCall "POST" v in
  if is_nil e && is_true (dat !! "success") then
    let* rdo := lift (assert_map (dat !! "result")) in
    ret (valuemap, rdo, None)
  else
    let empty : gmap string JSON := ∅ in
    if is_nil e then
      let* wserr := lift (wsError dat) in
      ret (valuemap, empty, Some wserr)
    else ret (valuemap, empty, e).

Definition DoUpdate (module : string) (valuemap : gomap)
    : M State (gomap * gmap string JSON * option error) :=
  let* conn := getConnection in
  let* valuemap :=
    match valuemap with
    | Some m =>
        match m !! "assigned_user_id" with
        | Some _ => ret (Some m)
        | None => ret (Some (<["assigned_user_id" := JStr (userid conn)]> m))
        end
    | None => throw PanicNilMapWrite
    end in
  let vals := json_Marshal (json_of_gomap valuemap) in
  let v : url_Values :=
    {[ "operation" := ["update"]; "sessionName" := [sessionid conn];
       "elementType" := [module]; "element" := [vals] ]} in
  let* (_, dat, e) := docbCall "POST" v in
  if is_nil e && is_true (dat !! "success") then
    let* rdo := lift (assert_map (dat !! "result")) in
    ret (valuemap, rdo, None)
  else
    let empty : gmap string JSON := ∅ in
    if is_nil e then
      let* wserr := lift (wsError dat) in
      ret (valuemap, empty, Some wserr)
    else ret (valuemap, empty, e).

Definition DoRevise (module : string) (valuemap : gomap)
    : M State (gomap * gmap string JSON * option error) :=
  let* conn := getConnection in
  let* valuemap :=
    match valuemap with
    | Some m =>
        match m !! "assigned_user_id" with
        | Some _ => ret (Some m)
        | None => ret (Some (<["assigned_user_id" := JStr (userid conn)]> m))
        end
    | None => throw PanicNilMapWrite
    end in
  let vals := json_Marshal (json_of_gomap valuemap) in
  let v : url_Values :=
    {[ "operation" := ["revise"]; "sessionName" := [sessionid conn];
       "elementType" := [module]; "element" := [vals] ]} in
  let* (_, dat, e) := docbCall "POST" v in
  if is_nil e && is_true (dat !! "success") then
    let* rdo := lift (assert_map (dat !! "result")) in
    ret (valuemap, rdo, None)
  else
    let empty : gmap string JSON := ∅ in
    if is_nil e then
      let* wserr := lift (wsError dat) in
      ret (valuemap, empty, Some wserr)
    else ret (valuemap, empty, e).

Definition DoDelete (record : string) : M State (bool * option error) :=
  let* conn := getConnection in
  let v : url_Values :=
    {[ "operation" := ["delete"]; "sessionName" := [sessionid conn];
       "id" := [record] ]} in
  let* (_, dat, e) := docbCall "POST" v in
  if is_nil e && is_true (dat !! "success") then
    let* rdo := lift (assert_map (dat !! "result")) in
    let* status := lift (assert_string (rdo !! "status")) in
    if String.eqb status "successful"
    then ret (true, None)
    else ret (false, Some (errors_New "Unexpected DELETE error"))
  else if is_nil e then
    let* wserr := lift (wsError dat) in
    ret (false, Some wserr)
  else ret (false, e).

Definition DoInvoke (method : string) (params : gomap) (typeofcall : string)
    : M State (gmap string JSON * option error) :=
  let* conn := getConnection in
  let v : url_Values :=
    {[ "operation" := [method]; "sessionName" := [sessionid conn] ]} in
  let* entries := world (range_map (gomap_read params)) in
  let* v := lift (invoke_loop entries v) in
  let* (_, dat, e) := docbCall typeofcall v in
  if is_nil e && is_true (dat !! "success") then
    let* rdo := lift (assert_map (dat !! "result")) in
    ret (rdo, None)
  else
    let empty : gmap string JSON := ∅ in
    if is_nil e then
      let* wserr := lift (wsError dat) in
      ret (empty, Some wserr)
    else ret (empty, e).

Definition DoGetRelatedRecords (record module relatedModule : string)
    (queryParameters : gomap) : M State (slice JSON * option error) :=
  let params := json_Marshal (json_of_gomap queryParameters) in
  let* conn := getConnection in
  let v : url_Values :=
    {[ "operation" := ["getRelatedRecords"];
       "sessionName" := [sessionid conn];
       "id" := [record]; "module" := [module];
       "relatedModule" := [relatedModule]; "queryParameters" := [params] ]} in
  let* (_, dat, e) := docbCall "POST" v in
  if is_nil e && is_true (dat !! "success") then
    let* rdo := lift (assert_map (dat !! "result")) in
    let* records := lift (assert_slice (rdo !! "records")) in
    ret (Some records, None)
  else
    let empty : slice JSON := None in
    if is_nil e then
      let* wserr := lift (wsError dat) in
      ret (empty, Some wserr)
    else ret (empty, e).

Definition DoSetRelated (relateThisID : string) (withTheseIds : slice string)
    : M State (bool * option error) :=
  let params := json_Marshal (json_of_strings withTheseIds) in
  let* conn := getConnection in
  let v : url_Values :=
    {[ "operation" := ["SetRelation"];
       "sessionName" := [sessionid conn];
       "relate_this_id" := [relateThisID]; "with_these_ids" := [params] ]} in
  let* (_, dat, e) := docbCall "POST" v in
  if is_nil e && is_true (dat !! "success") then
    let* b := lift (assert_bool (dat !! "result")) in
    ret (b, None)
  else if is_nil e then
    let* wserr := lift (wsError dat) in
    ret (false, Some wserr)
  else ret (false, e).

Definition DoLoginPage (template language csrf : string)
    : M State (string * option error) :=
  let* conn := getConnection in
  let v : url_Values :=
    {[ "operation" := ["getLoginPage"];
       "sessionName" := [sessionid conn];
       "template" := [template]; "language" := [language]; "csrf" := [csrf] ]} in
  let* (_, dat, e) := docbCall "GET" v in
  if is_nil e && is_true (dat !! "success") then
    let* page := lift (assert_string (dat !! "result")) in
    ret (page, None)
  else if is_nil e then
    let* wserr := lift (wsError dat) in
    ret ("", Some wserr)
  else ret ("", e).

(** One call of the API, as a caller observes it. *)
Definition exec (c : Call) : M State Value :=
  match c with
  | CSetURL cburl => SetURL cburl ;;; ret VNone
  | CChallenge username =>
      let* (ok, err) := doChallenge username in ret (VBool ok err)
  | CLogin username userAccesskey withpassword =>
      let* (ok, err) := DoLogin username userAccesskey withpassword in
      ret (VBool ok err)
  | CLogout => let* (ok, err) := DoLogout in ret (VBool ok err)
  | CQuery query => let* (r, err) := DoQuery query in ret (VIface r err)
  | CGetResultColumns => let* cols := GetResultColumns in ret (VColumns cols)
  | CListTypes l => let* (r, err) := DoListTypes l in ret (VTypes r err)
  | CDescribe module => let* (r, err) := DoDescribe module in ret (VMap r err)
  | CRetrieve record => let* (r, err) := DoRetrieve record in ret (VMap r err)
  | CCreate module valuemap =>
      let* (arg, r, err) := DoCreate module valuemap in ret (VWrite arg r err)
  | CUpdate module valuemap =>
      let* (arg, r, err) := DoUpdate module valuemap in ret (VWrite arg r err)
  | CRevise module valuemap =>
      let* (arg, r, err) := DoRevise module valuemap in ret (VWrite arg r err)
  | CDelete record => let* (ok, err) := DoDelete record in ret (VBool ok err)
  | CInvoke method params typeofcall =>
      let* (r, err) := DoInvoke method params typeofcall in ret (VMap r err)
  | CGetRelatedRecords record module relatedModule queryParameters =>
      let* (r, err) :=
        DoGetRelatedRecords record module relatedModule queryParameters in
      ret (VSlice r err)
  | CSetRelated relateThisID withTheseIds =>
      let* (ok, err) := DoSetRelated relateThisID withTheseIds in
      ret (VBool ok err)
  | CLoginPage template language csrf =>
      let* (page, err) := DoLoginPage template language csrf in
      ret (VString page err)
  end.

(** A caller making the calls one after the other; a panic ends the run. *)
Fixpoint run (calls : list Call) (s : State) (w : World)
    : list (Res Value) * State * World :=
  match calls with
  | [] => ([], s, w)
  | c :: calls' =>
      match exec c s w with
      | (Ret v, s', w') =>
          let '(outs, s'', w'') := run calls' s' w' in (Ret v :: outs, s'', w'')
      | (Panic p, s', w') => ([Panic p], s', w')
      end
  end.

End WithGoLib.

End Ctx.

(** ** A stand-in for the standard library

    Used to run the model on concrete inputs; the theorems below hold for
    every [GoLib]. *)
Definition toUpperASCII (c : ascii) : ascii :=
  let n := N_of_ascii c in
  if ((97 <=? n) && (n <=? 122))%N then ascii_of_N (n - 32) else c.

Definition stub_md5_Sum (text : string) : list ascii := repeat "000"%char 16.

Lemma stub_md5_Size (text : string) : length (stub_md5_Sum text) = 16%nat.
Proof. reflexivity. Qed.

#[local] Instance stub_lib : GoLib := {|
  md5_Sum := stub_md5_Sum;
  md5_Size := stub_md5_Size;
  json_Marshal := fun _ => "{}";
  strings_ToUpper := fun s =>
    string_of_list_ascii (toUpperASCII <$> list_ascii_of_string s);
  ToUpper_POST := eq_refl;
  ToUpper_GET := eq_refl;
|}.

(** A statement that holds whatever the standard library functions compute. *)
Definition for_every_lib (P : GoLib -> Prop) : Prop := forall L : GoLib, P L.

(** * Stating the properties *)

(** The request [doChallenge] builds. *)
Definition challenge_request (cbURL username : string) : Request :=
  mkRequest GET cbURL {[ "operation" := ["getchallenge"]; "username" := [username] ]}.

(** The request [DoLogin] builds once the challenge has stored [token]. *)
Definition login_request `{GoLib} (cbURL username accessKey : string) : Request :=
  mkRequest POST cbURL
    (Values_Set {[ "operation" := ["login"]; "username" := [username] ]}
       "accessKey" accessKey).

(** C1 as a property of a variant: its [cbURL] and its [DoLogin]. *)
Definition challenge_first_spec {S : Type} (url : S -> string)
    (DoLogin : string -> string -> bool -> M S (bool * option error)) : Prop :=
  forall (username userAccesskey : string) (withpassword : bool) (s : S) (w : World),
    let req := challenge_request (url s) username in
    let w1 := (exchange req w).2 in
    (exists rest,
        sent (DoLogin username userAccesskey withpassword s w).2 = sent w ++ req :: rest)
    /\ sent w1 = sent w ++ [req]
    /\ (forall err, next_response w = RespNetErr err ->
          DoLogin username userAccesskey withpassword s w = (Ret (false, Some err), s, w1))
    /\ (forall e, next_response w = RespBadJSON e ->
          DoLogin username userAccesskey withpassword s w = (Ret (false, Some e), s, w1))
    /\ (forall dat, next_response w = RespJSON dat ->
          dat !! "success" <> Some (JBool true) ->
          DoLogin username userAccesskey withpassword s w = (Ret (false, None), s, w1)).



(** C4 as a property of a variant: its [cbURL] and its [doChallenge]. *)
Definition challenge_error_spec {S : Type} (url : S -> string)
    (doChallenge : string -> M S (bool * option error)) : Prop :=
  forall (username : string) (s : S) (w : World),
    let w1 := (exchange (challenge_request (url s) username) w).2 in
    (forall dat, next_response w = RespJSON dat ->
       dat !! "success" = Some (JBool false) ->
       doChallenge username s w = (Ret (false, None), s, w1))
    /\ (forall ok e s' w',
          doChallenge username s w = (Ret (ok, Some e), s', w') ->
          ok = false /\ s' = s
          /\ (next_response w = RespNetErr e \/ next_response w = RespBadJSON e)).

(** C5, amended, as a property of a variant.  A [DoLogin] that returns
    [false] never touches [serviceuser], [servicekey], [sessionid], [userid],
    [cbURL] or the column map.  Either its challenge step failed and the
    state is the one before the call, or the challenge succeeded and the
    state is the one the challenge left: [servertime], [expiretime] and
    [token] hold what the challenge answer carried. *)
Definition failed_login_spec {S : Type} (conn : S -> cbConnectionType)
    (url : S -> string) (cols : S -> gmap Z string)
    (doChallenge : string -> M S (bool * option error))
    (DoLogin : string -> string -> bool -> M S (bool * option error)) : Prop :=
  forall (username userAccesskey : string) (withpassword : bool) (s : S) (w : World)
         (err : option error) (s' : S) (w' : World),
    DoLogin username userAccesskey withpassword s w = (Ret (false, err), s', w') ->
    serviceuser (conn s') = serviceuser (conn s)
    /\ servicekey (conn s') = servicekey (conn s)
    /\ sessionid (conn s') = sessionid (conn s)
    /\ userid (conn s') = userid (conn s)
    /\ url s' = url s
    /\ cols s' = cols s
    /\ ((exists w1, doChallenge username s w = (Ret (false, err), s, w1) /\ s' = s)
        \/ (exists w1 dat rdo st et tk,
              doChallenge username s w = (Ret (true, None), s', w1)
              /\ next_response w = RespJSON dat
              /\ dat !! "result" = Some (JObj rdo)
              /\ rdo !! "serverTime" = Some (JNum st)
              /\ rdo !! "expireTime" = Some (JStr et)
              /\ rdo !! "token" = Some (JStr tk)
              /\ servertime (conn s') = st
              /\ expiretime (conn s') = et
              /\ token (conn s') = tk)).

Definition query_request (cbURL sessionName q : string) : Request :=
  mkRequest GET cbURL
    {[ "operation" := ["query"]; "sessionName" := [sessionName]; "query" := [q] ]}.

(** [q] is some text that does not end in a semicolon, then one semicolon. *)
Definition ends_in_one_semicolon (q : string) : Prop :=
  exists body, q = body +:+ ";" /\ forall body', body <> body' +:+ ";".

(** C6 as a property of a variant. *)
Definition query_semicolon_spec {S : Type} (conn : S -> cbConnectionType)
    (url : S -> string) (DoQuery : string -> M S (JSON * option error)) : Prop :=
  forall (query : string) (s : S) (w : World),
    let q := strings_Trim query " ;" +:+ ";" in
    sent (DoQuery query s w).2
    = sent w ++ [query_request (url s) (sessionid (conn s)) q]
    /\ ends_in_one_semicolon q
    /\ (query = "select * from Contacts" -> q = "select * from Contacts;")
    /\ (query = "select * from Contacts;  " -> q = "select * from Contacts;").

(** The request of [DoCreate], [DoUpdate] and [DoRevise]. *)
Definition write_request (operation cbURL sessionName module element : string) : Request :=
  mkRequest POST cbURL
    {[ "operation" := [operation]; "sessionName" := [sessionName];
       "elementType" := [module]; "element" := [element] ]}.

(** C8, amended, as a property of one writing operation of a variant.
    For a map [m] that is not [nil]: the map that is marshalled into the
    request, and that the caller finds afterwards, is [m] itself when [m]
    has the key, and [m] with the key set to the session's [userid] when it
    has not; no other entry differs.  For a [nil] map the call panics and
    sends nothing. *)
Definition owner_default_spec `{GoLib} {S : Type} (conn : S -> cbConnectionType)
    (url : S -> string) (operation : string)
    (Do : string -> gomap -> M S (gomap * gmap string JSON * option error)) : Prop :=
  (forall (module : string) (m : gmap string JSON) (s : S) (w : World),
     exists sentmap : gmap string JSON,
       (m !! "assigned_user_id" = None ->
          sentmap = <["assigned_user_id" := JStr (userid (conn s))]> m)
       /\ (forall x, m !! "assigned_user_id" = Some x -> sentmap = m)
       /\ (forall k, k <> "assigned_user_id" -> sentmap !! k = m !! k)
       /\ sent (Do module (Some m) s w).2
          = sent w ++ [write_request operation (url s) (sessionid (conn s)) module
                         (json_Marshal (JObj sentmap))]
       /\ (forall valuemap r err s' w',
             Do module (Some m) s w = (Ret (valuemap, r, err), s', w') ->
             valuemap = Some sentmap))
  /\ (forall (module : string) (s : S) (w : World),
        Do module None s w = (Panic PanicNilMapWrite, s, w)).


Definition delete_request (cbURL sessionName record : string) : Request :=
  mkRequest POST cbURL
    {[ "operation" := ["delete"]; "sessionName" := [sessionName]; "id" := [record] ]}.

(** C9, amended, as a property of a variant.  [DoDelete] returns [true]
    exactly when the call is answered by [success = true] with a result
    object whose [status] is the string ["successful"], and then the error
    is [nil].  For a [status] that is another string it returns [false]
    with the local error ["Unexpected DELETE error"].  For a [status] that
    is missing or is not a string it panics. *)
Definition delete_status_spec {S : Type} (conn : S -> cbConnectionType)
    (url : S -> string) (DoDelete : string -> M S (bool * option error)) : Prop :=
  forall (record : string) (s : S) (w : World),
    let w1 := (exchange (delete_request (url s) (sessionid (conn s)) record) w).2 in
    (forall err s' w',
       DoDelete record s w = (Ret (true, err), s', w') <->
       err = None /\ s' = s /\ w' = w1
       /\ exists dat rdo,
            next_response w = RespJSON dat
            /\ dat !! "success" = Some (JBool true)
            /\ dat !! "result" = Some (JObj rdo)
            /\ rdo !! "status" = Some (JStr "successful"))
    /\ (forall dat rdo status,
          next_response w = RespJSON dat ->
          dat !! "success" = Some (JBool true) ->
          dat !! "result" = Some (JObj rdo) ->
          rdo !! "status" = Some (JStr status) ->
          status <> "successful" ->
          DoDelete record s w
          = (Ret (false, Some (errors_New "Unexpected DELETE error")), s, w1))
    /\ (forall dat rdo,
          next_response w = RespJSON dat ->
          dat !! "success" = Some (JBool true) ->
          dat !! "result" = Some (JObj rdo) ->
          (forall status, rdo !! "status" <> Some (JStr status)) ->
          DoDelete record s w = (Panic PanicTypeAssertion, s, w1)).


(** Two answers to queries, with three and with two columns. *)
Definition three_columns : gmap string JSON :=
  {[ "success" := JBool true;
     "result" := JArr [JObj {[ "firstname" := JStr "Ada"; "lastname" := JStr "Lovelace";
                               "email" := JStr "ada@example.org" ]}] ]}.

Definition two_rows : list JSON :=
  [JObj {[ "id" := JStr "1"; "name" := JStr "A" ]};
   JObj {[ "id" := JStr "2"; "name" := JStr "B" ]}].

Definition two_columns : gmap string JSON :=
  {[ "success" := JBool true; "result" := JArr two_rows ]}.


(** One of [0-9a-f]. *)
Definition is_lower_hex (c : ascii) : bool :=
  existsb (Ascii.eqb c) (list_ascii_of_string hextable).

(** 32 characters, each a lowercase hexadecimal digit. *)
Definition is_hex_digest (x : string) : bool :=
  (String.length x =? 32)%nat && forallb is_lower_hex (list_ascii_of_string x).

(** What [DoLogin] sends once the challenge has succeeded, as a property of
    a variant. *)
Definition access_key_spec `{GoLib} {S : Type} (conn : S -> cbConnectionType)
    (url : S -> string) (doChallenge : string -> M S (bool * option error))
    (DoLogin : string -> string -> bool -> M S (bool * option error)) : Prop :=
  forall (username userAccesskey : string) (withpassword : bool) (s s1 : S)
         (w w1 : World),
    doChallenge username s w = (Ret (true, None), s1, w1) ->
    let accessKey :=
      if withpassword
      then token (conn s1) +:+ userAccesskey
      else getMD5Hash (token (conn s1) +:+ userAccesskey) in
    let req := login_request (url s) username accessKey in
    sent (DoLogin username userAccesskey withpassword s w).2
    = sent w ++ [challenge_request (url s) username; req]
    /\ Values_Get (req_form req) "accessKey" = accessKey
    /\ Values_Get (req_form req) "operation" = "login"
    /\ Values_Get (req_form req) "username" = username.


(** The column map after a successful query, as a property of a variant:
    emptied when the result list is empty; otherwise the keys of the first
    row, in the order [order] of the iteration, written at the indices from
    0 over what the map held before. *)
Definition query_columns_spec {S : Type} (cols : S -> gmap Z string)
    (DoQuery : string -> M S (JSON * option error)) : Prop :=
  forall (query : string) (s : S) (w : World) (dat : gmap string JSON),
    next_response w = RespJSON dat ->
    dat !! "success" = Some (JBool true) ->
    (dat !! "result" = Some (JArr []) ->
       exists s' w',
         DoQuery query s w = (Ret (JArr [], None), s', w') /\ cols s' = ∅)
    /\ (forall row rest,
          dat !! "result" = Some (JArr (JObj row :: rest)) ->
          exists order s' w',
            Permutation order (map_to_list row).*1
            /\ DoQuery query s w = (Ret (JArr (JObj row :: rest), None), s', w')
            /\ forall j : Z,
                 cols s' !! j =
                 if decide (0 <= j < Z.of_nat (size row))
                 then order !! Z.to_nat j
                 else cols s !! j).

(** C7, amended, as a property of a variant.  [GetResultColumns] returns
    the column map.  After a successful query with an empty result list the
    map is empty.  After a successful query whose first row is an object
    with [n] keys, the indices [0 .. n-1] of the map hold the keys of that
    row, each once, in an order [order] that the iteration chooses. *)
Definition result_columns_spec {S : Type} (cols : S -> gmap Z string)
    (DoQuery : string -> M S (JSON * option error))
    (GetResultColumns : M S (gmap Z string)) : Prop :=
  (forall (s : S) (w : World), GetResultColumns s w = (Ret (cols s), s, w))
  /\ forall (query : string) (s : S) (w : World) (dat : gmap string JSON),
       next_response w = RespJSON dat ->
       dat !! "success" = Some (JBool true) ->
       (dat !! "result" = Some (JArr []) ->
          exists s' w',
            DoQuery query s w = (Ret (JArr [], None), s', w') /\ cols s' = ∅)
       /\ (forall row rest,
             dat !! "result" = Some (JArr (JObj row :: rest)) ->
             exists order s' w',
               Permutation order (map_to_list row).*1
               /\ DoQuery query s w = (Ret (JArr (JObj row :: rest), None), s', w')
               /\ forall j : Z,
                    0 <= j < Z.of_nat (size row) ->
                    cols s' !! j = order !! Z.to_nat j).

(** The error a call hands back, if any. *)
Definition err_of (v : Value) : option error :=
  match v with
  | VNone | VColumns _ => None
  | VBool _ err | VIface _ err | VTypes _ err | VMap _ err | VWrite _ _ err
  | VSlice _ err | VString _ err => err
  end.

(** The call gets as far as its own HTTP request, which is answered by the
    envelope [dat].  [DoLogin] gets there after a successful challenge, the
    three writing operations when their map is not [nil], [DoInvoke] when
    its parameters are strings.  The challenge step is left out, and so are
    the calls that make no request. *)
Definition answered_by {S : Type} (doChallenge : string -> M S (bool * option error))
    (call : Call) (s : S) (w : World) (dat : gmap string JSON) : Prop :=
  match call with
  | CSetURL _ | CGetResultColumns | CChallenge _ => False
  | CLogin username _ _ =>
      exists s1 w1,
        doChallenge username s w = (Ret (true, None), s1, w1)
        /\ next_response w1 = RespJSON dat
  | CCreate _ valuemap | CUpdate _ valuemap | CRevise _ valuemap =>
      valuemap <> None /\ next_response w = RespJSON dat
  | CInvoke _ params _ =>
      (forall k x, gomap_read params !! k = Some x -> exists str, x = JStr str)
      /\ next_response w = RespJSON dat
  | _ => next_response w = RespJSON dat
  end.

Definition remote_error_spec {S : Type}
    (doChallenge : string -> M S (bool * option error))
    (exec : Call -> M S Value) : Prop :=
  forall (call : Call) (s : S) (w : World) (dat wserr : gmap string JSON)
         (code message : string),
    dat !! "success" = Some (JBool false) ->
    dat !! "error" = Some (JObj wserr) ->
    wserr !! "code" = Some (JStr code) ->
    wserr !! "message" = Some (JStr message) ->
    answered_by doChallenge call s w dat ->
    exists v s' w',
      exec call s w = (Ret v, s', w')
      /\ Error <$> err_of v = Some (code +:+ ": " +:+ message).



(** The package state a context stands for, and back. *)
Definition abs (c : Ctx.State) : Global.Package :=
  {| Global.cbConnection := Ctx.cbConnection (Ctx.cbCtx c);
     Global.cbURL := Ctx.cbURL c;
     Global.queryRestulColumns := Ctx.queryResultColumns (Ctx.cbCtx c) |}.

Definition conc (s : Global.Package) : Ctx.State :=
  {| Ctx.cbURL := Global.cbURL s;
     Ctx.cbCtx := {| Ctx.cbConnection := Global.cbConnection s;
                     Ctx.queryResultColumns := Global.queryRestulColumns s |} |}.

Lemma conc_abs c : conc (abs c) = c.
Proof. by destruct c as [url [conn cols]]. Qed.

Lemma abs_conc s : abs (conc s) = s.
Proof. by destruct s. Qed.

Lemma abs_init : abs Ctx.init = Global.init.
Proof. reflexivity. Qed.

(** A context computation does what the package computation does on the
    state the context stands for. *)
Definition simM {A : Type} (mg : M Global.Package A) (mc : M Ctx.State A) : Prop :=
  forall c w, mc c w = (let '(r, s, w') := mg (abs c) w in (r, conc s, w')).


(** ** Concrete sessions and answers, for the examples *)

Definition challenge_ok : gmap string JSON :=
  {[ "success" := JBool true;
     "result" := JObj {[ "serverTime" := JNum 1538472363%float;
                         "expireTime" := JStr "1538472663";
                         "token" := JStr "5bb33aeb2f6e5" ]} ]}.

Definition invalid_session : gmap string JSON :=
  {[ "success" := JBool false;
     "error" := JObj {[ "code" := JStr "INVALID_SESSION";
                        "message" := JStr "bad session" ]} ]}.

(** A session after a login, and answers to a create and to a delete. *)
Definition logged_in : Global.Package :=
  {| Global.cbConnection :=
       {| servertime := 1538472363%float; expiretime := "1538472663";
          token := "5bb33aeb2f6e5"; serviceuser := "admin";
          servicekey := "cdYTBpiMR9RfGgO"; sessionid := "6f5a0c5a27d1e";
          userid := "19x1" |};
     Global.cbURL := "/webservice.php";
     Global.queryRestulColumns := ∅ |}.

Definition created : gmap string JSON :=
  {[ "success" := JBool true;
     "result" := JObj {[ "id" := JStr "12x7"; "lastname" := JStr "Lovelace" ]} ]}.

Definition deleted (status : JSON) : gmap string JSON :=
  {[ "success" := JBool true; "result" := JObj {[ "status" := status ]} ]}.

Definition failing_challenge : gmap string JSON :=
  {[ "success" := JBool false;
     "error" := JObj {[ "code" := JStr "INVALID_USER";
                        "message" := JStr "no such user" ]} ]}.

Definition after_failed_login : Global.Package :=
  {| Global.cbConnection :=
       {| servertime := 1538472363%float; expiretime := "1538472663";
          token := "5bb33aeb2f6e5"; serviceuser := ""; servicekey := "";
          sessionid := ""; userid := "" |};
     Global.cbURL := "/webservice.php";
     Global.queryRestulColumns := ∅ |}.


Definition no_rows : gmap string JSON :=
  {[ "success" := JBool true; "result" := JArr [] ]}.

(** ** Stating further properties *)

(** How many requests a call may send. *)
Definition max_requests (call : Call) : nat :=
  match call with
  | CSetURL _ | CGetResultColumns => 0
  | CLogin _ _ _ => 2
  | _ => 1
  end.

(** What a call does to the traffic, as a property of a variant: the
    requests sent before stay as they are, the call adds at most
    [max_requests] requests, all of them to the [cbURL] of the moment, and
    it takes one pending answer for each request it sends. *)
Definition traffic_spec {S : Type} (url : S -> string) (exec : Call -> M S Value) : Prop :=
  forall (call : Call) (s : S) (w : World),
    exists reqs : list Request,
      sent (exec call s w).2 = sent w ++ reqs
      /\ pending (exec call s w).2 = drop (length reqs) (pending w)
      /\ (length reqs <= max_requests call)%nat
      /\ Forall (fun r => req_url r = url s) reqs.

(** What a call may change in the state, as a property of a variant, also
    when it panics: [SetURL] only [cbURL], the challenge and the login only
    the connection data, a query only the column map, every other call
    nothing. *)
Definition footprint_spec {S : Type} (conn : S -> cbConnectionType)
    (url : S -> string) (cols : S -> gmap Z string) (exec : Call -> M S Value) : Prop :=
  forall (call : Call) (s : S) (w : World),
    let s' := (exec call s w).1.2 in
    match call with
    | CSetURL _ => conn s' = conn s /\ cols s' = cols s
    | CChallenge _ | CLogin _ _ _ => url s' = url s /\ cols s' = cols s
    | CQuery _ => url s' = url s /\ conn s' = conn s
    | _ => s' = s
    end.

(** The call gets as far as its own HTTP request, with the state [s0], and
    the request is answered by [r].  [DoLogin] gets there after a
    successful challenge, the three writing operations when their map is
    not [nil], [DoInvoke] when its parameters are strings; [SetURL] and
    [GetResultColumns] make no request. *)
Definition answered_with {S : Type} (doChallenge : string -> M S (bool * option error))
    (call : Call) (s : S) (w : World) (s0 : S) (r : Response) : Prop :=
  match call with
  | CSetURL _ | CGetResultColumns => False
  | CLogin username _ _ =>
      exists w1,
        doChallenge username s w = (Ret (true, None), s0, w1)
        /\ next_response w1 = r
  | CCreate _ valuemap | CUpdate _ valuemap | CRevise _ valuemap =>
      valuemap <> None /\ s0 = s /\ next_response w = r
  | CInvoke _ params _ =>
      (forall k x, gomap_read params !! k = Some x -> exists str, x = JStr str)
      /\ s0 = s /\ next_response w = r
  | _ => s0 = s /\ next_response w = r
  end.

(** The value a call returns beside an error: [false], an empty map, a
    [nil] slice, the empty string. *)
Definition is_zero (v : Value) : Prop :=
  match v with
  | VNone | VColumns _ => False
  | VBool ok _ => ok = false
  | VIface r _ => r = JObj ∅
  | VTypes r _ => r = ∅
  | VMap r _ | VWrite _ r _ => r = ∅
  | VSlice r _ => r = None
  | VString r _ => r = ""
  end.

(** What a call does when its request fails, as a property of a variant.
    A transport error or a decoding error is returned as it is.  An
    envelope whose [success] is not [true] gives the error built from its
    [error] object, except for the challenge step, and a panic when that
    object is missing or malformed.  In each case the value is the zero
    value and the state is the one the request was made in. *)
Definition failure_spec {S : Type} (doChallenge : string -> M S (bool * option error))
    (exec : Call -> M S Value) : Prop :=
  forall (call : Call) (s s0 : S) (w : World) (r : Response),
    answered_with doChallenge call s w s0 r ->
    (forall e, r = RespNetErr e \/ r = RespBadJSON e ->
       exists v w',
         exec call s w = (Ret v, s0, w') /\ err_of v = Some e /\ is_zero v)
    /\ (forall dat, r = RespJSON dat -> dat !! "success" <> Some (JBool true) ->
          match call with
          | CChallenge _ =>
              exists w', exec call s w = (Ret (VBool false None), s0, w')
          | _ =>
              match wsError dat with
              | Ret e =>
                  exists v w',
                    exec call s w = (Ret v, s0, w') /\ err_of v = Some e /\ is_zero v
              | Panic p => exists w', exec call s w = (Panic p, s0, w')
              end
          end).

(** When the challenge succeeds, as a property of a variant: exactly when
    its call is answered by [success = true] and a result object with a
    number [serverTime] and strings [expireTime] and [token]; these three
    are stored and nothing else changes. *)
Definition challenge_success_spec {S : Type} (conn : S -> cbConnectionType)
    (url : S -> string) (cols : S -> gmap Z string)
    (doChallenge : string -> M S (bool * option error)) : Prop :=
  forall (username : string) (s : S) (w : World),
    let w1 := (exchange (challenge_request (url s) username) w).2 in
    let stored s' st et tk :=
      conn s' = mkConnection st et tk (serviceuser (conn s)) (servicekey (conn s))
                  (sessionid (conn s)) (userid (conn s))
      /\ url s' = url s /\ cols s' = cols s in
    (forall dat rdo st et tk,
       next_response w = RespJSON dat ->
       dat !! "success" = Some (JBool true) ->
       dat !! "result" = Some (JObj rdo) ->
       rdo !! "serverTime" = Some (JNum st) ->
       rdo !! "expireTime" = Some (JStr et) ->
       rdo !! "token" = Some (JStr tk) ->
       exists s', doChallenge username s w = (Ret (true, None), s', w1)
                  /\ stored s' st et tk)
    /\ (forall err s' w',
          doChallenge username s w = (Ret (true, err), s', w') ->
          err = None /\ w' = w1
          /\ exists dat rdo st et tk,
               next_response w = RespJSON dat
               /\ dat !! "success" = Some (JBool true)
               /\ dat !! "result" = Some (JObj rdo)
               /\ rdo !! "serverTime" = Some (JNum st)
               /\ rdo !! "expireTime" = Some (JStr et)
               /\ rdo !! "token" = Some (JStr tk)
               /\ stored s' st et tk).

(** When the login succeeds, as a property of a variant: exactly when the
    challenge succeeded and the login call is answered by [success = true]
    and a result object with strings [sessionName] and [userId].  The
    session then holds the user name and key of the call, the session name
    and user id of the answer, and the challenge data. *)
Definition login_success_spec {S : Type} (conn : S -> cbConnectionType)
    (url : S -> string) (cols : S -> gmap Z string)
    (doChallenge : string -> M S (bool * option error))
    (DoLogin : string -> string -> bool -> M S (bool * option error)) : Prop :=
  forall (username userAccesskey : string) (withpassword : bool) (s : S) (w : World),
    let answered s1 w1 dat rdo sid uid :=
      doChallenge username s w = (Ret (true, None), s1, w1)
      /\ next_response w1 = RespJSON dat
      /\ dat !! "success" = Some (JBool true)
      /\ dat !! "result" = Some (JObj rdo)
      /\ rdo !! "sessionName" = Some (JStr sid)
      /\ rdo !! "userId" = Some (JStr uid) in
    let stored s1 s' sid uid :=
      conn s' = mkConnection (servertime (conn s1)) (expiretime (conn s1))
                  (token (conn s1)) username userAccesskey sid uid
      /\ url s' = url s /\ cols s' = cols s in
    (forall s1 w1 dat rdo sid uid,
       answered s1 w1 dat rdo sid uid ->
       exists s' w',
         DoLogin username userAccesskey withpassword s w = (Ret (true, None), s', w')
         /\ stored s1 s' sid uid)
    /\ (forall err s' w',
          DoLogin username userAccesskey withpassword s w = (Ret (true, err), s', w') ->
          err = None
          /\ exists s1 w1 dat rdo sid uid,
               answered s1 w1 dat rdo sid uid /\ stored s1 s' sid uid).

(** A login answer with [success = true] whose result lacks the session
    name, as a property of a variant: [DoLogin] panics, after it has
    replaced [serviceuser] and [servicekey] by those of the call; the
    session name and the user id are the old ones. *)
Definition login_panic_spec {S : Type} (conn : S -> cbConnectionType)
    (doChallenge : string -> M S (bool * option error))
    (DoLogin : string -> string -> bool -> M S (bool * option error)) : Prop :=
  forall (username userAccesskey : string) (withpassword : bool) (s s1 : S)
         (w w1 : World) (dat rdo : gmap string JSON),
    doChallenge username s w = (Ret (true, None), s1, w1) ->
    next_response w1 = RespJSON dat ->
    dat !! "success" = Some (JBool true) ->
    dat !! "result" = Some (JObj rdo) ->
    (forall sid, rdo !! "sessionName" <> Some (JStr sid)) ->
    exists s' w',
      DoLogin username userAccesskey withpassword s w
      = (Panic PanicTypeAssertion, s', w')
      /\ serviceuser (conn s') = username
      /\ servicekey (conn s') = userAccesskey
      /\ sessionid (conn s') = sessionid (conn s1)
      /\ userid (conn s') = userid (conn s1)
      /\ token (conn s') = token (conn s1).

(** The [operation] value of the request of a call. *)
Definition operation_of (call : Call) : string :=
  match call with
  | CSetURL _ | CGetResultColumns => ""
  | CChallenge _ => "getchallenge"
  | CLogin _ _ _ => "login"
  | CLogout => "logout"
  | CQuery _ => "query"
  | CListTypes _ => "listtypes"
  | CDescribe _ => "describe"
  | CRetrieve _ => "retrieve"
  | CCreate _ _ => "create"
  | CUpdate _ _ => "update"
  | CRevise _ _ => "revise"
  | CDelete _ => "delete"
  | CInvoke method _ _ => method
  | CGetRelatedRecords _ _ _ _ => "getRelatedRecords"
  | CSetRelated _ _ => "SetRelation"
  | CLoginPage _ _ _ => "getLoginPage"
  end.

(** The HTTP method of the request of a call. *)
Definition method_of `{GoLib} (call : Call) : httpMethod :=
  match call with
  | CChallenge _ | CQuery _ | CListTypes _ | CDescribe _ | CRetrieve _
  | CLoginPage _ _ _ => GET
  | CInvoke _ _ typeofcall => http_method typeofcall
  | _ => POST
  end.

(** The calls that make one request in the name of the session, with fixed
    parameters: all but [SetURL], [GetResultColumns], the challenge, the
    login and [DoInvoke]; a writing operation only with a map that is not
    [nil]. *)
Definition session_call (call : Call) : Prop :=
  match call with
  | CSetURL _ | CGetResultColumns | CChallenge _ | CLogin _ _ _
  | CInvoke _ _ _ => False
  | CCreate _ valuemap | CUpdate _ valuemap | CRevise _ valuemap => valuemap <> None
  | _ => True
  end.

(** The request of a session call, as a property of a variant: one
    request, to [cbURL], with the method and the operation name of the
    call and the session name of the connection data. *)
Definition session_request_spec `{GoLib} {S : Type} (conn : S -> cbConnectionType)
    (url : S -> string) (exec : Call -> M S Value) : Prop :=
  forall (call : Call) (s : S) (w : World),
    session_call call ->
    exists r : Request,
      sent (exec call s w).2 = sent w ++ [r]
      /\ req_method r = method_of call
      /\ req_url r = url s
      /\ Values_Get (req_form r) "operation" = operation_of call
      /\ Values_Get (req_form r) "sessionName" = sessionid (conn s).

(** What a run of calls keeps, as a property of a variant, whatever the
    answers and also when the run ends in a panic: the connection data
    when the run holds no challenge and no login, [cbURL] when it holds no
    [SetURL], the column map when it holds no query. *)
Definition run_footprint_spec {S : Type} (conn : S -> cbConnectionType)
    (url : S -> string) (cols : S -> gmap Z string)
    (run : list Call -> S -> World -> list (Res Value) * S * World) : Prop :=
  forall (calls : list Call) (s : S) (w : World),
    let s' := (run calls s w).1.2 in
    (Forall (fun call => match call with
                         | CChallenge _ | CLogin _ _ _ => False
                         | _ => True
                         end) calls -> conn s' = conn s)
    /\ (Forall (fun call => match call with CSetURL _ => False | _ => True end) calls ->
        url s' = url s)
    /\ (Forall (fun call => match call with CQuery _ => False | _ => True end) calls ->
        cols s' = cols s).

Definition listtypes_request `{GoLib} (cbURL sessionName : string)
    (fieldTypeList : slice string) : Request :=
  mkRequest GET cbURL
    {[ "operation" := ["listtypes"]; "sessionName" := [sessionName];
       "fieldTypeList" := [json_Marshal (json_of_strings fieldTypeList)] ]}.

(** [DoListTypes] on a successful answer whose result holds the list
    [mods] under [types], as a property of a variant.  When every entry of
    [mods] is a string, the map returned has exactly the names of [mods] as
    keys, each mapped to itself.  When some entry is not a string the call
    panics.  The state is left as it was. *)
Definition list_types_spec `{GoLib} {S : Type} (conn : S -> cbConnectionType)
    (url : S -> string)
    (DoListTypes : slice string -> M S (gmap string string * option error)) : Prop :=
  forall (fieldTypeList : slice string) (s : S) (w : World)
         (dat rdo : gmap string JSON) (mods : list JSON),
    next_response w = RespJSON dat ->
    dat !! "success" = Some (JBool true) ->
    dat !! "result" = Some (JObj rdo) ->
    rdo !! "types" = Some (JArr mods) ->
    let w1 := (exchange (listtypes_request (url s) (sessionid (conn s)) fieldTypeList)
                 w).2 in
    (forall names : list string, mods = JStr <$> names ->
       exists types : gmap string string,
         DoListTypes fieldTypeList s w = (Ret (types, None), s, w1)
         /\ forall k v, types !! k = Some v <-> v = k /\ k ∈ names)
    /\ ((exists x, x ∈ mods /\ forall name, x <> JStr name) ->
        DoListTypes fieldTypeList s w = (Panic PanicTypeAssertion, s, w1)).

(** The values [DoInvoke] starts from. *)
Definition invoke_base (method sessionName : string) : url_Values :=
  {[ "operation" := [method]; "sessionName" := [sessionName] ]}.

(** [DoInvoke] and its parameters, as a property of a variant.  When all
    parameters are strings, one request is sent, whatever the order of the
    iteration: a parameter is added unless the values already hold a
    non-empty text under its name, so a parameter replaces [operation] only
    when [method] is empty and [sessionName] only when the session has no
    session name.  When a parameter that would be added is not a string the
    call panics and sends nothing. *)
Definition invoke_spec `{GoLib} {S : Type} (conn : S -> cbConnectionType)
    (url : S -> string)
    (DoInvoke : string -> gomap -> string -> M S (gmap string JSON * option error))
    : Prop :=
  forall (method : string) (params : gomap) (typeofcall : string) (s : S) (w : World),
    let base := invoke_base method (sessionid (conn s)) in
    ((forall k x, gomap_read params !! k = Some x -> exists str, x = JStr str) ->
     exists form : url_Values,
       sent (DoInvoke method params typeofcall s w).2
       = sent w ++ [mkRequest (http_method typeofcall) (url s) form]
       /\ (forall k,
             form !! k =
             match gomap_read params !! k with
             | Some (JStr str) =>
                 if String.eqb (Values_Get base k) "" then Some [str] else base !! k
             | _ => base !! k
             end)
       /\ (method <> "" -> Values_Get form "operation" = method)
       /\ (sessionid (conn s) <> "" ->
           Values_Get form "sessionName" = sessionid (conn s)))
    /\ ((exists k x, gomap_read params !! k = Some x
                     /\ Values_Get base k = ""
                     /\ forall str, x <> JStr str) ->
        exists w',
          DoInvoke method params typeofcall s w = (Panic PanicTypeAssertion, s, w')
          /\ sent w' = sent w /\ pending w' = pending w).

(** * Properties *)

(** ** The transport *)

Section Transport.
Context `{GoLib}.

Lemma http_method_GET : http_method "GET" = GET.
Proof. unfold http_method. by rewrite ToUpper_GET. Qed.

Lemma http_method_POST : http_method "POST" = POST.
Proof. unfold http_method. by rewrite ToUpper_POST. Qed.

Lemma sent_exchange req w : sent (exchange req w).2 = sent w ++ [req].
Proof. reflexivity. Qed.

Lemma Global_docbCall typeofcall params s w :
  Global.docbCall typeofcall params s w =
  (Ret (answer (next_response w)), s,
   (exchange (mkRequest (http_method typeofcall) (Global.cbURL s) params) w).2).
Proof. reflexivity. Qed.

End Transport.

(** ** Proof steps shared by the operations *)

Ltac go_unfold :=
  unfold bind, Global.getConnection, Global.docbCall, Global.getURL,
    Global.getColumns, Global.setColumns, Global.setURL, Global.setConnection,
    world, httpCall, get, ret, lift, throw, modify;
  rewrite ?http_method_POST, ?http_method_GET; simpl.

Ltac go_case :=
  match goal with
  | |- context [next_response ?w] => destruct (next_response w) as [?|?|?]
  | |- context [is_true ?x] => destruct (is_true x) eqn:?
  | |- context [assert_map ?x] => destruct (assert_map x) eqn:?
  | |- context [assert_string ?x] => destruct (assert_string x) eqn:?
  | |- context [assert_float64 ?x] => destruct (assert_float64 x) eqn:?
  | |- context [assert_bool ?x] => destruct (assert_bool x) eqn:?
  | |- context [assert_slice ?x] => destruct (assert_slice x) eqn:?
  | |- context [wsError ?d] => destruct (wsError d) eqn:?
  end.

Ltac go_cases := repeat (go_case; simpl; auto).

(** ** Challenge and login, package-level variant *)

Section Login.
Context `{GoLib}.

Lemma doChallenge_sends username s w :
  exists r s',
    Global.doChallenge username s w =
    (r, s', (exchange (challenge_request (Global.cbURL s) username) w).2)
    /\ Global.cbURL s' = Global.cbURL s.
Proof.
  unfold Global.doChallenge, bind. rewrite Global_docbCall, http_method_GET.
  fold (challenge_request (Global.cbURL s) username).
  destruct (next_response w) as [err|e|dat]; simpl; eauto.
  destruct (is_true (dat !! "success")); simpl; eauto.
  unfold lift, Global.setConnection, modify, ret.
  repeat (match goal with |- context [assert_map ?x] => destruct (assert_map x)
          | |- context [assert_float64 ?x] => destruct (assert_float64 x)
          | |- context [assert_string ?x] => destruct (assert_string x) end;
          simpl; eauto).
Qed.

Lemma doChallenge_NetErr username s w err :
  next_response w = RespNetErr err ->
  Global.doChallenge username s w =
  (Ret (false, Some err), s,
   (exchange (challenge_request (Global.cbURL s) username) w).2).
Proof.
  intros Hr. unfold Global.doChallenge, bind.
  rewrite Global_docbCall, http_method_GET, Hr. reflexivity.
Qed.

Lemma doChallenge_BadJSON username s w e :
  next_response w = RespBadJSON e ->
  Global.doChallenge username s w =
  (Ret (false, Some e), s,
   (exchange (challenge_request (Global.cbURL s) username) w).2).
Proof.
  intros Hr. unfold Global.doChallenge, bind.
  rewrite Global_docbCall, http_method_GET, Hr. reflexivity.
Qed.

Lemma doChallenge_not_success username s w dat :
  next_response w = RespJSON dat ->
  dat !! "success" <> Some (JBool true) ->
  Global.doChallenge username s w =
  (Ret (false, None), s,
   (exchange (challenge_request (Global.cbURL s) username) w).2).
Proof.
  intros Hr Hs. unfold Global.doChallenge, bind.
  rewrite Global_docbCall, http_method_GET, Hr. simpl.
  destruct (dat !! "success") as [[| [] | | | |]|]; try reflexivity.
  congruence.
Qed.

(** What a challenge that returns [false] has seen and done. *)
Lemma doChallenge_false_inv username s w err s' w' :
  Global.doChallenge username s w = (Ret (false, err), s', w') ->
  s' = s
  /\ w' = (exchange (challenge_request (Global.cbURL s) username) w).2
  /\ match next_response w with
     | RespNetErr x | RespBadJSON x => err = Some x
     | RespJSON dat => err = None /\ dat !! "success" <> Some (JBool true)
     end.
Proof.
  unfold Global.doChallenge, bind.
  rewrite Global_docbCall, http_method_GET.
  fold (challenge_request (Global.cbURL s) username).
  destruct (next_response w) as [x|x|dat]; simpl.
  - intros [= <- <- <-]. auto.
  - intros [= <- <- <-]. auto.
  - destruct (dat !! "success") as [[| [] | | | |]|] eqn:Hs; simpl;
      try (intros [= <- <- <-]; repeat split; congruence).
    unfold lift, Global.setConnection, modify, ret.
    repeat (match goal with |- context [assert_map ?x] => destruct (assert_map x)
            | |- context [assert_float64 ?x] => destruct (assert_float64 x)
            | |- context [assert_string ?x] => destruct (assert_string x) end;
            simpl; try discriminate).
Qed.

(** What a challenge that returns [true] has seen and done. *)
Lemma doChallenge_true_inv username s w err s' w' :
  Global.doChallenge username s w = (Ret (true, err), s', w') ->
  err = None
  /\ w' = (exchange (challenge_request (Global.cbURL s) username) w).2
  /\ exists dat rdo st et tk,
       next_response w = RespJSON dat
       /\ dat !! "success" = Some (JBool true)
       /\ dat !! "result" = Some (JObj rdo)
       /\ rdo !! "serverTime" = Some (JNum st)
       /\ rdo !! "expireTime" = Some (JStr et)
       /\ rdo !! "token" = Some (JStr tk)
       /\ s' = Global.mkPackage
                 (let c := Global.cbConnection s in
                  mkConnection st et tk (serviceuser c) (servicekey c)
                    (sessionid c) (userid c))
                 (Global.cbURL s) (Global.queryRestulColumns s).
Proof.
  unfold Global.doChallenge, bind.
  rewrite Global_docbCall, http_method_GET.
  fold (challenge_request (Global.cbURL s) username).
  destruct (next_response w) as [x|x|dat]; simpl; try discriminate.
  destruct (dat !! "success") as [[| [] | | | |]|] eqn:Hs; simpl; try discriminate.
  unfold lift, Global.setConnection, modify, ret.
  destruct (dat !! "result") as [[| | | | |rdo]|] eqn:Hr; simpl; try discriminate.
  destruct (rdo !! "serverTime") as [[| |st| | |]|] eqn:H1; simpl; try discriminate.
  destruct (rdo !! "expireTime") as [[| | |et| |]|] eqn:H2; simpl; try discriminate.
  destruct (rdo !! "token") as [[| | |tk| |]|] eqn:H3; simpl; try discriminate.
  intros [= <- <- <-]. repeat split.
  exists dat, rdo, st, et, tk. repeat split; auto.
Qed.

(** [DoLogin] after its first statement. *)
Lemma DoLogin_after_challenge username userAccesskey withpassword s w :
  Global.DoLogin username userAccesskey withpassword s w =
  match Global.doChallenge username s w with
  | (Ret (false, err), s1, w1) => (Ret (false, err), s1, w1)
  | (Ret (true, _), s1, w1) =>
      let accessKey :=
        if withpassword
        then token (Global.cbConnection s1) +:+ userAccesskey
        else getMD5Hash (token (Global.cbConnection s1) +:+ userAccesskey) in
      let w2 := (exchange (login_request (Global.cbURL s1) username accessKey) w1).2 in
      match next_response w1 with
      | RespNetErr x | RespBadJSON x => (Ret (false, Some x), s1, w2)
      | RespJSON dat =>
          if is_true (dat !! "success") then
            match assert_map (dat !! "result") with
            | Panic p => (Panic p, s1, w2)
            | Ret rdo =>
                let c := Global.cbConnection s1 in
                let s2 c' := Global.mkPackage c' (Global.cbURL s1)
                               (Global.queryRestulColumns s1) in
                match assert_string (rdo !! "sessionName") with
                | Panic p =>
                    (Panic p,
                     s2 (mkConnection (servertime c) (expiretime c) (token c)
                           username userAccesskey (sessionid c) (userid c)), w2)
                | Ret sid =>
                    match assert_string (rdo !! "userId") with
                    | Panic p =>
                        (Panic p,
                         s2 (mkConnection (servertime c) (expiretime c) (token c)
                               username userAccesskey sid (userid c)), w2)
                    | Ret uid =>
                        (Ret (true, None),
                         s2 (mkConnection (servertime c) (expiretime c) (token c)
                               username userAccesskey sid uid), w2)
                    end
                end
            end
          else
            match wsError dat with
            | Panic p => (Panic p, s1, w2)
            | Ret wserr => (Ret (false, Some wserr), s1, w2)
            end
      end
  | (Panic p, s1, w1) => (Panic p, s1, w1)
  end.
Proof.
  unfold Global.DoLogin at 1. unfold bind at 1.
  destruct (Global.doChallenge username s w) as [[[[[] err]|p] s1] w1]; simpl; auto.
  go_unfold. unfold login_request.
  destruct withpassword; simpl; go_cases.
Qed.

Lemma Global_challenge_first : challenge_first_spec Global.cbURL Global.DoLogin.
Proof.
  intros username userAccesskey withpassword s w req w1.
  split; [|split; [reflexivity|]].
  - rewrite DoLogin_after_challenge.
    destruct (doChallenge_sends username s w) as (r & s1 & -> & Hurl).
    fold req. fold w1.
    destruct r as [[[] err]|p]; simpl.
    + exists [login_request (Global.cbURL s1) username
               (if withpassword
                then token (Global.cbConnection s1) +:+ userAccesskey
                else getMD5Hash (token (Global.cbConnection s1) +:+ userAccesskey))].
      go_cases; simpl; by rewrite <- app_assoc.
    + by exists [].
    + by exists [].
  - repeat split.
    + intros err Hr. rewrite DoLogin_after_challenge.
      by rewrite (doChallenge_NetErr _ _ _ _ Hr).
    + intros e Hr. rewrite DoLogin_after_challenge.
      by rewrite (doChallenge_BadJSON _ _ _ _ Hr).
    + intros dat Hr Hs. rewrite DoLogin_after_challenge.
      by rewrite (doChallenge_not_success _ _ _ _ Hr Hs).
Qed.

Lemma Global_challenge_error : challenge_error_spec Global.cbURL Global.doChallenge.
Proof.
  intros username s w w1. split.
  - intros dat Hr Hs. apply (doChallenge_not_success _ _ _ dat Hr). by rewrite Hs.
  - intros [] e s' w' Hrun.
    + apply doChallenge_true_inv in Hrun as [? _]. discriminate.
    + apply doChallenge_false_inv in Hrun as (-> & _ & Hresp).
      repeat split.
      destruct (next_response w); [left | right | destruct Hresp as [? _]; discriminate];
        congruence.
Qed.

Lemma Global_failed_login :
  failed_login_spec Global.cbConnection Global.cbURL Global.queryRestulColumns
    Global.doChallenge Global.DoLogin.
Proof.
  intros username userAccesskey withpassword s w err s' w'.
  rewrite DoLogin_after_challenge.
  destruct (Global.doChallenge username s w) as [[[[[] e]|p] s1] w1] eqn:Hch;
    [| |discriminate].
  - apply doChallenge_true_inv in Hch
      as (-> & -> & dat & rdo & st & et & tk & Hr & _ & Hres & Hst & Het & Htk & ->).
    intros Hlogin.
    assert (s' = Global.mkPackage
                   (mkConnection st et tk (serviceuser (Global.cbConnection s))
                      (servicekey (Global.cbConnection s))
                      (sessionid (Global.cbConnection s))
                      (userid (Global.cbConnection s)))
                   (Global.cbURL s) (Global.queryRestulColumns s)) as ->.
    { revert Hlogin. simpl. go_cases; congruence. }
    repeat split. right.
    eexists _, dat, rdo, st, et, tk. repeat split; eauto.
  - intros [= <- <- <-].
    apply doChallenge_false_inv in Hch as (-> & -> & _).
    repeat split. left. eauto.
Qed.

End Login.

(** ** The error envelope *)

Lemma wsError_ok (dat wserr : gmap string JSON) (code message : string) :
  dat !! "error" = Some (JObj wserr) ->
  wserr !! "code" = Some (JStr code) ->
  wserr !! "message" = Some (JStr message) ->
  wsError dat = Ret (errors_New (code +:+ ": " +:+ message)).
Proof. intros He Hc Hm. unfold wsError. by rewrite He; simpl; rewrite Hc, Hm. Qed.

Lemma is_true_false (dat : gmap string JSON) :
  dat !! "success" = Some (JBool false) -> is_true (dat !! "success") = false.
Proof. by intros ->. Qed.

(** ** Iteration order *)

Lemma insert_at_Permutation {A} (n : nat) (x : A) (l : list A) :
  Permutation (insert_at n x l) (x :: l).
Proof.
  revert n. induction l as [|y l IH]; intros [|n]; simpl; try reflexivity.
  rewrite IH. apply perm_swap.
Qed.

Lemma shuffle_Permutation {A} (choice : list nat) (l : list A) :
  Permutation (shuffle choice l) l.
Proof.
  revert choice. induction l as [|x l IH]; intros choice; simpl; [reflexivity|].
  rewrite insert_at_Permutation. by rewrite IH.
Qed.

Lemma range_map_entries {V} (m : gmap string V) (w : World) k x :
  (k, x) ∈ (range_map m w).1 <-> m !! k = Some x.
Proof.
  unfold range_map; simpl. rewrite shuffle_Permutation.
  apply elem_of_map_to_list.
Qed.

Lemma invoke_loop_strings (params : list (string * JSON)) (v : url_Values) :
  Forall (fun kv => exists str, kv.2 = JStr str) params ->
  exists v', invoke_loop params v = Ret v'.
Proof.
  intros Hall. revert v. induction Hall as [|[idx val] params [str Hstr] _ IH];
    intros v; simpl in *; [eauto|].
  subst val. destruct (String.eqb (Values_Get v idx) ""); simpl; eauto.
Qed.

(** ** Remote errors *)

Section RemoteError.
Context `{GoLib}.

Lemma Global_remote_error : remote_error_spec Global.doChallenge Global.exec.
Proof.
  intros call s w dat wserr code message Hs He Hc Hm Ha.
  pose proof (wsError_ok _ _ _ _ He Hc Hm) as Hws.
  pose proof (is_true_false _ Hs) as Hf.
  destruct call; simpl in Ha; try contradiction.
  1: { (* DoLogin *)
    destruct Ha as (s1 & w1 & Hch & Hr).
    simpl. unfold bind at 1. rewrite DoLogin_after_challenge, Hch; simpl.
    rewrite Hr, Hf, Hws. simpl. eauto. }
  all: try (simpl; unfold Global.DoLogout, Global.DoQuery, Global.DoListTypes,
      Global.DoDescribe, Global.DoRetrieve, Global.DoDelete,
      Global.DoGetRelatedRecords, Global.DoSetRelated, Global.DoLoginPage;
    go_unfold; rewrite Ha; simpl; rewrite Hf, Hws; simpl; by eauto).
  all: try (destruct Ha as [Hnil Ha]; destruct valuemap as [m|]; [|done];
    simpl; unfold Global.DoCreate, Global.DoUpdate, Global.DoRevise;
    go_unfold; destruct (m !! "assigned_user_id"); simpl;
    rewrite Ha; simpl; rewrite Hf, Hws; simpl; by eauto).
  (* DoInvoke *)
  destruct Ha as [Hstr Ha].
  simpl; unfold Global.DoInvoke. go_unfold.
  edestruct (invoke_loop_strings
               (shuffle (hd [] (mapiter w)) (map_to_list (gomap_read params))))
    as [v' ->].
  { apply Forall_forall. intros [k x] Hin. simpl.
    apply (Hstr k). by apply (range_map_entries _ w). }
  unfold next_response in *; simpl. rewrite Ha; simpl. rewrite Hf, Hws; simpl.
  eauto.
Qed.
End RemoteError.

(** ** Queries *)

Section Query.
Context `{GoLib}.

Lemma list_ascii_of_string_app (a b : string) :
  list_ascii_of_string (a +:+ b) = list_ascii_of_string a ++ list_ascii_of_string b.
Proof. induction a as [|c a IH]; simpl; [done|by rewrite IH]. Qed.

Lemma trimLeftASCII_suffix (s : list ascii) (cutset : string) :
  exists pre, s = pre ++ trimLeftASCII s cutset.
Proof.
  induction s as [|c s [pre IH]]; simpl; [by exists []|].
  destruct (in_cutset cutset c).
  - exists (c :: pre). simpl. by rewrite <- IH.
  - by exists [].
Qed.

Lemma trimLeftASCII_head (s : list ascii) (cutset : string) c r :
  trimLeftASCII s cutset = c :: r -> in_cutset cutset c = false.
Proof.
  induction s as [|c0 s IH]; simpl; [done|].
  destruct (in_cutset cutset c0) eqn:Hc; [done|]. by intros [= <- _].
Qed.

Lemma trimRightASCII_last (s : list ascii) (cutset : string) r c :
  trimRightASCII s cutset = r ++ [c] -> in_cutset cutset c = false.
Proof.
  unfold trimRightASCII. intros Hr.
  apply (f_equal (@rev ascii)) in Hr. rewrite rev_involutive, rev_app_distr in Hr.
  simpl in Hr. by apply trimLeftASCII_head in Hr.
Qed.

Lemma strings_Trim_last (s cutset : string) r c :
  list_ascii_of_string (strings_Trim s cutset) = r ++ [c] ->
  in_cutset cutset c = false.
Proof.
  unfold strings_Trim. rewrite list_ascii_of_string_of_list_ascii. intros Hr.
  destruct (trimLeftASCII_suffix (trimRightASCII (list_ascii_of_string s) cutset) cutset)
    as [pre Hpre].
  rewrite Hr, app_assoc in Hpre. by apply trimRightASCII_last in Hpre.
Qed.

Lemma query_ends_in_one_semicolon (query : string) :
  ends_in_one_semicolon (strings_Trim query " ;" +:+ ";").
Proof.
  exists (strings_Trim query " ;"). split; [done|].
  intros body' Heq. apply (f_equal list_ascii_of_string) in Heq.
  rewrite list_ascii_of_string_app in Heq. simpl in Heq.
  by apply strings_Trim_last in Heq.
Qed.

Lemma Global_query_semicolon :
  query_semicolon_spec Global.cbConnection Global.cbURL Global.DoQuery.
Proof.
  intros query s w q. repeat split.
  - unfold Global.DoQuery. fold q. go_unfold. unfold query_request.
    go_cases. by destruct a as [|[] ?].
  - apply query_ends_in_one_semicolon.
  - by intros ->.
  - by intros ->.
Qed.

End Query.
Section Columns.
Context `{GoLib}.

Lemma columns_loop_lookup (cols : list string) (idx : Z) (columns : gmap Z string) (j : Z) :
  columns_loop cols idx columns !! j =
  if decide (idx <= j < idx + Z.of_nat (length cols))
  then cols !! Z.to_nat (j - idx)
  else columns !! j.
Proof.
  revert idx columns. induction cols as [|col cols IH]; intros idx columns; simpl.
  - case_decide; [lia|done].
  - rewrite IH. repeat case_decide; try lia.
    + replace (Z.to_nat (j - idx)) with (S (Z.to_nat (j - (idx + 1)))) by lia. done.
    + assert (j = idx) as -> by lia. rewrite lookup_insert_eq.
      by replace (Z.to_nat (idx - idx)) with 0%nat by lia.
    + rewrite lookup_insert_ne by lia. done.
Qed.

(** A successful query with an empty result list. *)
Lemma DoQuery_no_rows (query : string) s w dat :
  next_response w = RespJSON dat ->
  dat !! "success" = Some (JBool true) ->
  dat !! "result" = Some (JArr []) ->
  Global.DoQuery query s w =
  (Ret (JArr [], None),
   Global.mkPackage (Global.cbConnection s) (Global.cbURL s) ∅,
   (exchange (query_request (Global.cbURL s) (sessionid (Global.cbConnection s))
                (strings_Trim query " ;" +:+ ";")) w).2).
Proof.
  intros Hr Hs Hres. unfold Global.DoQuery. go_unfold.
  rewrite Hr; simpl. rewrite Hs, Hres; simpl. reflexivity.
Qed.

(** A successful query whose first row is an object: the columns are
    written over the old map, in the order the run time visits the row. *)
Lemma DoQuery_rows (query : string) s w dat row rest :
  next_response w = RespJSON dat ->
  dat !! "success" = Some (JBool true) ->
  dat !! "result" = Some (JArr (JObj row :: rest)) ->
  exists order w',
    Permutation order (map_to_list row).*1
    /\ Global.DoQuery query s w =
       (Ret (JArr (JObj row :: rest), None),
        Global.mkPackage (Global.cbConnection s) (Global.cbURL s)
          (columns_loop order 0 (Global.queryRestulColumns s)),
        w')
    /\ pending w' = tail (pending w)
    /\ mapiter w' = tail (mapiter w).
Proof.
  intros Hr Hs Hres.
  exists (shuffle (hd [] (mapiter w)) (map_to_list row)).*1. eexists. split.
  { by rewrite shuffle_Permutation. }
  unfold Global.DoQuery. go_unfold.
  rewrite Hr; simpl. rewrite Hs, Hres; simpl. eauto.
Qed.

Lemma Global_query_columns :
  query_columns_spec Global.queryRestulColumns Global.DoQuery.
Proof.
  intros query s w dat Hr Hs. split.
  - intros Hres. eexists _, _. split; [by apply (DoQuery_no_rows _ _ _ dat)|done].
  - intros row rest Hres.
    destruct (DoQuery_rows query s w dat row rest Hr Hs Hres)
      as (order & w' & Hperm & Hrun & _).
    exists order. eexists _, w'. split; [done|]. split; [done|].
    intros j. simpl. rewrite columns_loop_lookup.
    assert (length order = size row) as ->.
    { rewrite Hperm, length_fmap. apply length_map_to_list. }
    replace (j - 0) with j by lia.
    repeat case_decide; try lia; done.
Qed.

End Columns.

(** ** Writing operations *)

Section Write.
Context `{GoLib}.

Ltac write_proof :=
  split;
  [ intros module m s w;
    exists (match m !! "assigned_user_id" with
            | Some _ => m
            | None => <["assigned_user_id" := JStr (userid (Global.cbConnection s))]> m
            end);
    split; [by intros ->|];
    split; [by intros x ->|];
    split; [intros k Hk; destruct (m !! "assigned_user_id");
            [done|by rewrite lookup_insert_ne]|];
    unfold Global.DoCreate, Global.DoUpdate, Global.DoRevise, write_request;
    go_unfold;
    destruct (m !! "assigned_user_id"); simpl;
    (split; [go_cases|go_cases; congruence])
  | reflexivity ].

Lemma Global_create_owner :
  owner_default_spec Global.cbConnection Global.cbURL "create" Global.DoCreate.
Proof. write_proof. Qed.

Lemma Global_update_owner :
  owner_default_spec Global.cbConnection Global.cbURL "update" Global.DoUpdate.
Proof. write_proof. Qed.

Lemma Global_revise_owner :
  owner_default_spec Global.cbConnection Global.cbURL "revise" Global.DoRevise.
Proof. write_proof. Qed.

End Write.

(** ** Deleting *)

Section Delete.
Context `{GoLib}.

Lemma is_true_inv (x : option JSON) : is_true x = true -> x = Some (JBool true).
Proof. by destruct x as [[| [] | | | |]|]. Qed.

Lemma assert_map_inv (x : option JSON) m : assert_map x = Ret m -> x = Some (JObj m).
Proof. destruct x as [[| | | | |]|]; simpl; congruence. Qed.

Lemma assert_string_inv (x : option JSON) str :
  assert_string x = Ret str -> x = Some (JStr str).
Proof. destruct x as [[| | | | |]|]; simpl; congruence. Qed.

Lemma Global_delete_status :
  delete_status_spec Global.cbConnection Global.cbURL Global.DoDelete.
Proof.
  intros record s w w1. subst w1. unfold delete_request.
  split; [|split].
  - intros err s' w'. unfold Global.DoDelete. go_unfold. split.
    + destruct (next_response w) as [x|x|dat]; simpl; try discriminate.
      destruct (is_true (dat !! "success")) eqn:Hs; simpl;
        [|destruct (wsError dat); discriminate].
      destruct (assert_map (dat !! "result")) as [rdo|] eqn:Hres; simpl;
        [|discriminate].
      destruct (assert_string (rdo !! "status")) as [status|] eqn:Hst; simpl;
        [|discriminate].
      destruct (String.eqb_spec status "successful") as [->|Hne]; [|discriminate].
      intros [= <- <- <-]. repeat split.
      exists dat, rdo. repeat split.
      * by apply is_true_inv.
      * by apply assert_map_inv.
      * by apply assert_string_inv.
    + intros (-> & -> & -> & dat & rdo & -> & Hs & Hres & Hst). simpl.
      rewrite Hs, Hres; simpl. by rewrite Hst.
  - intros dat rdo status Hr Hs Hres Hst Hne.
    unfold Global.DoDelete. go_unfold. rewrite Hr; simpl.
    rewrite Hs, Hres; simpl. rewrite Hst; simpl.
    by destruct (String.eqb_spec status "successful").
  - intros dat rdo Hr Hs Hres Hst.
    unfold Global.DoDelete. go_unfold. rewrite Hr; simpl.
    rewrite Hs, Hres; simpl.
    destruct (rdo !! "status") as [[| | |status| |]|] eqn:Hst'; simpl; try done.
    by destruct (Hst status).
Qed.

(** The local error text has no colon, so it is not of the form
    [code: message] of a remote error. *)
Lemma delete_error_is_local (code message : string) :
  "Unexpected DELETE error" <> code +:+ ": " +:+ message.
Proof.
  intros Heq. apply (f_equal list_ascii_of_string) in Heq.
  rewrite !list_ascii_of_string_app in Heq.
  assert (In ":"%char (list_ascii_of_string "Unexpected DELETE error")) as Hin.
  { rewrite Heq. apply in_or_app. right. apply in_or_app. left. simpl. auto. }
  simpl in Hin. intuition discriminate.
Qed.

End Delete.

(** ** The access key *)

Section AccessKey.
Context `{GoLib}.

Lemma Global_access_key :
  access_key_spec Global.cbConnection Global.cbURL Global.doChallenge Global.DoLogin.
Proof.
  intros username userAccesskey withpassword s s1 w w1 Hch accessKey req.
  split; [|by repeat split].
  rewrite DoLogin_after_challenge, Hch.
  apply doChallenge_true_inv in Hch
    as (_ & -> & dat & rdo & st & et & tk & _ & _ & _ & _ & _ & _ & ->).
  subst req accessKey. simpl.
  go_cases; simpl; by rewrite <- app_assoc.
Qed.

Lemma hexdigit_lower_hex (i : N) : is_lower_hex (hexdigit i) = true.
Proof.
  unfold hexdigit.
  assert (Forall (fun c => is_lower_hex c = true)
            (list_ascii_of_string hextable)) as Hall.
  { repeat constructor. }
  destruct (nth_in_or_default (N.to_nat i) (list_ascii_of_string hextable) "0"%char)
    as [Hin| ->]; [|done].
  rewrite Forall_forall in Hall. apply Hall. by apply list_elem_of_In.
Qed.

Lemma hex_EncodeToString_length (src : list ascii) :
  String.length (hex_EncodeToString src) = (2 * length src)%nat.
Proof. induction src as [|b src IH]; simpl; [done|]. rewrite IH. lia. Qed.

Lemma hex_EncodeToString_lower_hex (src : list ascii) :
  forallb is_lower_hex (list_ascii_of_string (hex_EncodeToString src)) = true.
Proof.
  induction src as [|b src IH]; simpl; [done|].
  by rewrite !hexdigit_lower_hex, IH.
Qed.

Lemma getMD5Hash_hex_digest (text : string) : is_hex_digest (getMD5Hash text) = true.
Proof.
  unfold is_hex_digest, getMD5Hash.
  rewrite hex_EncodeToString_length, md5_Size, hex_EncodeToString_lower_hex.
  reflexivity.
Qed.

End AccessKey.

(** ** The two variants side by side *)

Section Simulation.
Context `{GoLib}.

Lemma sim_ret {A} (a : A) : simM (ret a) (ret a).
Proof. intros c w. unfold ret. by rewrite conc_abs. Qed.

Lemma sim_lift {A} (r : Res A) : simM (lift r) (lift r).
Proof. intros c w. unfold lift. by rewrite conc_abs. Qed.

Lemma sim_throw {A} (p : panic) : simM (throw (A:=A) p) (throw p).
Proof. intros c w. unfold throw. by rewrite conc_abs. Qed.

Lemma sim_world {A} (f : World -> A * World) : simM (world f) (world f).
Proof. intros c w. unfold world. destruct (f w). by rewrite conc_abs. Qed.

Lemma sim_bind {A B} (mg : M Global.Package A) (mc : M Ctx.State A)
    (kg : A -> M Global.Package B) (kc : A -> M Ctx.State B) :
  simM mg mc -> (forall a, simM (kg a) (kc a)) -> simM (bind mg kg) (bind mc kc).
Proof.
  intros Hm Hk c w. unfold bind. rewrite Hm.
  destruct (mg (abs c) w) as [[[a|p] s] w']; [|done].
  rewrite Hk. by rewrite abs_conc.
Qed.

(** Results carry over in both directions. *)
Lemma sim_inv {A} (mg : M Global.Package A) (mc : M Ctx.State A) :
  simM mg mc ->
  forall c w r c' w',
    mc c w = (r, c', w') <-> mg (abs c) w = (r, abs c', w').
Proof.
  intros Hsim c w r c' w'. rewrite Hsim.
  destruct (mg (abs c) w) as [[r0 s0] w0]. split.
  - intros [= <- <- <-]. by rewrite abs_conc.
  - intros [= -> -> ->]. by rewrite conc_abs.
Qed.

Lemma sim_world_eq {A} (mg : M Global.Package A) (mc : M Ctx.State A) :
  simM mg mc -> forall c w, (mc c w).2 = (mg (abs c) w).2.
Proof. intros Hsim c w. rewrite Hsim. by destruct (mg (abs c) w) as [[r s] w']. Qed.

Lemma abs_inj c c' : abs c' = abs c <-> c' = c.
Proof.
  split; [|by intros ->].
  intros Heq. by rewrite <- (conc_abs c'), Heq, conc_abs.
Qed.

Lemma sim_getConnection : simM Global.getConnection Ctx.getConnection.
Proof. intros c w. by destruct c as [url [conn cols]]. Qed.

Lemma sim_getURL : simM Global.getURL Ctx.getURL.
Proof. intros c w. by destruct c as [url [conn cols]]. Qed.

Lemma sim_getColumns : simM Global.getColumns Ctx.getColumns.
Proof. intros c w. by destruct c as [url [conn cols]]. Qed.

Lemma sim_setConnection f : simM (Global.setConnection f) (Ctx.setConnection f).
Proof. intros c w. by destruct c as [url [conn cols]]. Qed.

Lemma sim_setURL url : simM (Global.setURL url) (Ctx.setURL url).
Proof. intros c w. by destruct c as [? [conn cols]]. Qed.

Lemma sim_setColumns f : simM (Global.setColumns f) (Ctx.setColumns f).
Proof. intros c w. by destruct c as [url [conn cols]]. Qed.

Create HintDb sim.
#[local] Hint Resolve sim_ret sim_lift sim_throw sim_world sim_getConnection
  sim_getURL sim_getColumns sim_setConnection sim_setURL sim_setColumns : sim.

(** Both sides have the same shape: walk it. *)
Ltac sim_step :=
  match goal with
  | |- simM (bind _ _) (bind _ _) => apply sim_bind; [|intros]
  | |- simM (let '(_, _) := ?x in _) _ => destruct x
  | |- simM (if ?b then _ else _) _ => destruct b
  | |- simM (match ?x with _ => _ end) _ => destruct x
  | |- simM _ _ => solve [auto with sim]
  end.
Ltac sim := repeat sim_step.

Lemma sim_docbCall typeofcall params :
  simM (Global.docbCall typeofcall params) (Ctx.docbCall typeofcall params).
Proof. unfold Global.docbCall, Ctx.docbCall. sim. Qed.
#[local] Hint Resolve sim_docbCall : sim.

Lemma sim_SetURL cburl : simM (Global.SetURL cburl) (Ctx.SetURL cburl).
Proof. unfold Global.SetURL, Ctx.SetURL. sim. Qed.

Lemma sim_doChallenge username :
  simM (Global.doChallenge username) (Ctx.doChallenge username).
Proof. unfold Global.doChallenge, Ctx.doChallenge. sim. Qed.
#[local] Hint Resolve sim_doChallenge : sim.

Lemma sim_DoLogin username userAccesskey withpassword :
  simM (Global.DoLogin username userAccesskey withpassword)
       (Ctx.DoLogin username userAccesskey withpassword).
Proof. unfold Global.DoLogin, Ctx.DoLogin. sim. Qed.

Lemma sim_DoLogout : simM Global.DoLogout Ctx.DoLogout.
Proof. unfold Global.DoLogout, Ctx.DoLogout. sim. Qed.

Lemma sim_DoQuery query : simM (Global.DoQuery query) (Ctx.DoQuery query).
Proof. unfold Global.DoQuery, Ctx.DoQuery. sim. Qed.

Lemma sim_GetResultColumns : simM Global.GetResultColumns Ctx.GetResultColumns.
Proof. unfold Global.GetResultColumns, Ctx.GetResultColumns. sim. Qed.

Lemma sim_DoListTypes l : simM (Global.DoListTypes l) (Ctx.DoListTypes l).
Proof. unfold Global.DoListTypes, Ctx.DoListTypes. sim. Qed.

Lemma sim_DoDescribe module : simM (Global.DoDescribe module) (Ctx.DoDescribe module).
Proof. unfold Global.DoDescribe, Ctx.DoDescribe. sim. Qed.

Lemma sim_DoRetrieve record : simM (Global.DoRetrieve record) (Ctx.DoRetrieve record).
Proof. unfold Global.DoRetrieve, Ctx.DoRetrieve. sim. Qed.

Lemma sim_DoCreate module valuemap :
  simM (Global.DoCreate module valuemap) (Ctx.DoCreate module valuemap).
Proof. unfold Global.DoCreate, Ctx.DoCreate. sim. Qed.

Lemma sim_DoUpdate module valuemap :
  simM (Global.DoUpdate module valuemap) (Ctx.DoUpdate module valuemap).
Proof. unfold Global.DoUpdate, Ctx.DoUpdate. sim. Qed.

Lemma sim_DoRevise module valuemap :
  simM (Global.DoRevise module valuemap) (Ctx.DoRevise module valuemap).
Proof. unfold Global.DoRevise, Ctx.DoRevise. sim. Qed.

Lemma sim_DoDelete record : simM (Global.DoDelete record) (Ctx.DoDelete record).
Proof. unfold Global.DoDelete, Ctx.DoDelete. sim. Qed.

Lemma sim_DoInvoke method params typeofcall :
  simM (Global.DoInvoke method params typeofcall)
       (Ctx.DoInvoke method params typeofcall).
Proof. unfold Global.DoInvoke, Ctx.DoInvoke. sim. Qed.

Lemma sim_DoGetRelatedRecords record module relatedModule queryParameters :
  simM (Global.DoGetRelatedRecords record module relatedModule queryParameters)
       (Ctx.DoGetRelatedRecords record module relatedModule queryParameters).
Proof. unfold Global.DoGetRelatedRecords, Ctx.DoGetRelatedRecords. sim. Qed.

Lemma sim_DoSetRelated relateThisID withTheseIds :
  simM (Global.DoSetRelated relateThisID withTheseIds)
       (Ctx.DoSetRelated relateThisID withTheseIds).
Proof. unfold Global.DoSetRelated, Ctx.DoSetRelated. sim. Qed.

Lemma sim_DoLoginPage template language csrf :
  simM (Global.DoLoginPage template language csrf)
       (Ctx.DoLoginPage template language csrf).
Proof. unfold Global.DoLoginPage, Ctx.DoLoginPage. sim. Qed.

#[local] Hint Resolve sim_SetURL sim_DoLogin sim_DoLogout sim_DoQuery
  sim_GetResultColumns sim_DoListTypes sim_DoDescribe sim_DoRetrieve
  sim_DoCreate sim_DoUpdate sim_DoRevise sim_DoDelete sim_DoInvoke
  sim_DoGetRelatedRecords sim_DoSetRelated sim_DoLoginPage : sim.

Lemma sim_exec call : simM (Global.exec call) (Ctx.exec call).
Proof. destruct call; simpl; sim. Qed.

Lemma sim_run calls c w :
  Ctx.run calls c w =
  (let '(outs, s, w') := Global.run calls (abs c) w in (outs, conc s, w')).
Proof.
  revert c w. induction calls as [|call calls IH]; intros c w; simpl.
  - by rewrite conc_abs.
  - rewrite sim_exec.
    destruct (Global.exec call (abs c) w) as [[[v|p] s] w']; [|done].
    rewrite IH, abs_conc.
    by destruct (Global.run calls s w') as [[outs s''] w''].
Qed.

End Simulation.

(** * The claims *)

Section Transfer.
Context `{GoLib}.

Lemma Ctx_challenge_first : challenge_first_spec Ctx.cbURL Ctx.DoLogin.
Proof.
  intros username userAccesskey withpassword c w req w1.
  destruct (Global_challenge_first username userAccesskey withpassword (abs c) w)
    as (Hsent & Hw1 & Hnet & Hbad & Hko).
  pose proof (sim_DoLogin username userAccesskey withpassword c w) as Hsim.
  split; [|split; [done|repeat split]].
  - rewrite Hsim.
    by destruct (Global.DoLogin username userAccesskey withpassword (abs c) w)
      as [[r s'] w'].
  - intros err Hr. rewrite Hsim, (Hnet err Hr). by rewrite conc_abs.
  - intros e Hr. rewrite Hsim, (Hbad e Hr). by rewrite conc_abs.
  - intros dat Hr Hs. rewrite Hsim, (Hko dat Hr Hs). by rewrite conc_abs.
Qed.

Lemma Ctx_challenge_error : challenge_error_spec Ctx.cbURL Ctx.doChallenge.
Proof.
  intros username c w w1.
  destruct (Global_challenge_error username (abs c) w) as [Hko Herr].
  split.
  - intros dat Hr Hs. apply (sim_inv _ _ (sim_doChallenge username)).
    by apply (Hko dat).
  - intros ok e c' w' Hrun.
    apply (sim_inv _ _ (sim_doChallenge username)) in Hrun.
    apply Herr in Hrun as (-> & Habs & Hresp). repeat split; [|done].
    by rewrite <- (conc_abs c'), Habs, conc_abs.
Qed.

Lemma Ctx_failed_login :
  failed_login_spec (fun s => Ctx.cbConnection (Ctx.cbCtx s)) Ctx.cbURL
    (fun s => Ctx.queryResultColumns (Ctx.cbCtx s)) Ctx.doChallenge Ctx.DoLogin.
Proof.
  intros username userAccesskey withpassword c w err c' w' Hrun.
  apply (sim_inv _ _ (sim_DoLogin username userAccesskey withpassword)) in Hrun.
  apply Global_failed_login in Hrun
    as (Hsu & Hsk & Hsid & Huid & Hurl & Hcols & Hcase).
  repeat split; try done.
  destruct Hcase as [(w1 & Hch & Heq)|(w1 & dat & rdo & st & et & tk & Hch & Hrest)].
  - left. exists w1. split.
    + by apply (sim_inv _ _ (sim_doChallenge username)).
    + by rewrite <- (conc_abs c'), Heq, conc_abs.
  - right. exists w1, dat, rdo, st, et, tk. split; [|done].
    by apply (sim_inv _ _ (sim_doChallenge username)).
Qed.

Lemma Ctx_remote_error : remote_error_spec Ctx.doChallenge Ctx.exec.
Proof.
  intros call c w dat wserr code message Hs He Hc Hm Ha.
  assert (answered_by Global.doChallenge call (abs c) w dat) as Hg.
  { destruct call; simpl in *; try done.
    destruct Ha as (c1 & w1 & Hch & Hr). exists (abs c1), w1. split; [|done].
    by apply (sim_inv _ _ (sim_doChallenge username)). }
  destruct (Global_remote_error call (abs c) w dat wserr code message
              Hs He Hc Hm Hg) as (v & s' & w' & Hrun & Htext).
  exists v, (conc s'), w'. split; [|done].
  apply (sim_inv _ _ (sim_exec call)). by rewrite abs_conc.
Qed.

Lemma Ctx_query_semicolon :
  query_semicolon_spec (fun s => Ctx.cbConnection (Ctx.cbCtx s)) Ctx.cbURL Ctx.DoQuery.
Proof.
  intros query c w q.
  destruct (Global_query_semicolon query (abs c) w) as (Hsent & Hrest).
  split; [|done]. by rewrite (sim_world_eq _ _ (sim_DoQuery query)).
Qed.

Lemma Ctx_owner_default operation
    (Dog : string -> gomap -> M Global.Package (gomap * gmap string JSON * option error))
    (Doc : string -> gomap -> M Ctx.State (gomap * gmap string JSON * option error)) :
  (forall module valuemap, simM (Dog module valuemap) (Doc module valuemap)) ->
  owner_default_spec Global.cbConnection Global.cbURL operation Dog ->
  owner_default_spec (fun s => Ctx.cbConnection (Ctx.cbCtx s)) Ctx.cbURL operation Doc.
Proof.
  intros Hsim [Hmap Hnil]. split.
  - intros module m c w.
    destruct (Hmap module m (abs c) w) as (sentmap & Habsent & Hpresent & Hother & Hsent & Hret).
    exists sentmap. repeat split; try done.
    + by rewrite (sim_world_eq _ _ (Hsim module (Some m))).
    + intros valuemap r err c' w' Hrun.
      apply (sim_inv _ _ (Hsim module (Some m))) in Hrun. by eapply Hret.
  - intros module c w. apply (sim_inv _ _ (Hsim module None)). apply Hnil.
Qed.

Lemma Ctx_delete_status :
  delete_status_spec (fun s => Ctx.cbConnection (Ctx.cbCtx s)) Ctx.cbURL Ctx.DoDelete.
Proof.
  intros record c w w1.
  destruct (Global_delete_status record (abs c) w) as (Htrue & Hother & Hpanic).
  split; [|split].
  - intros err c' w'.
    rewrite (sim_inv _ _ (sim_DoDelete record)), Htrue, abs_inj. done.
  - intros dat rdo status Hr Hs Hres Hst Hne.
    apply (sim_inv _ _ (sim_DoDelete record)). by eapply Hother.
  - intros dat rdo Hr Hs Hres Hst.
    apply (sim_inv _ _ (sim_DoDelete record)). by eapply Hpanic.
Qed.

Lemma Ctx_access_key :
  access_key_spec (fun s => Ctx.cbConnection (Ctx.cbCtx s)) Ctx.cbURL
    Ctx.doChallenge Ctx.DoLogin.
Proof.
  intros username userAccesskey withpassword c c1 w w1 Hch accessKey req.
  apply (sim_inv _ _ (sim_doChallenge username)) in Hch.
  destruct (Global_access_key username userAccesskey withpassword (abs c) (abs c1)
              w w1 Hch) as (Hsent & Hrest).
  split; [|done].
  by rewrite (sim_world_eq _ _ (sim_DoLogin username userAccesskey withpassword)).
Qed.

Lemma Ctx_query_columns :
  query_columns_spec (fun s => Ctx.queryResultColumns (Ctx.cbCtx s)) Ctx.DoQuery.
Proof.
  intros query c w dat Hr Hs.
  destruct (Global_query_columns query (abs c) w dat Hr Hs) as [Hempty Hrows].
  split.
  - intros Hres. destruct (Hempty Hres) as (s' & w' & Hrun & Hcols).
    exists (conc s'), w'. split; [|done].
    apply (sim_inv _ _ (sim_DoQuery query)). by rewrite abs_conc.
  - intros row rest Hres.
    destruct (Hrows row rest Hres) as (order & s' & w' & Hperm & Hrun & Hcols).
    exists order, (conc s'), w'. repeat split; [done| |done].
    apply (sim_inv _ _ (sim_DoQuery query)). by rewrite abs_conc.
Qed.

End Transfer.

(** C1. [DoLogin] first performs the getchallenge call: in both variants the
    first request it sends is the challenge request.  When that call ends in
    a transport error, in a decoding error, or in an envelope whose
    [success] is not [true], [DoLogin] returns [false] with the error of the
    challenge step, the session is as before, and the challenge request is
    the only request sent: no login request follows. *)
Theorem DoLogin_challenge_first `{GoLib} :
  challenge_first_spec Global.cbURL Global.DoLogin
  /\ challenge_first_spec Ctx.cbURL Ctx.DoLogin.
Proof. split; [apply Global_challenge_first | apply Ctx_challenge_first]. Qed.

Lemma DoLogin_challenge_first_witness :
  Global.DoLogin (H:=stub_lib) "admin" "key" false Global.init
    (mkWorld [RespJSON failing_challenge] [] [])
  = (Ret (false, None), Global.init,
     mkWorld [] [challenge_request "/webservice.php" "admin"] []).
Proof.
  destruct (proj1 (DoLogin_challenge_first (H:=stub_lib)) "admin" "key" false
              Global.init (mkWorld [RespJSON failing_challenge] [] []))
    as (_ & _ & _ & _ & Hko).
  apply (Hko failing_challenge); [reflexivity|].
  intros Hs; vm_compute in Hs; discriminate.
Defined.

(** C4. When the challenge call receives a well-formed envelope with
    [success = false], [doChallenge] returns [false] with a [nil] error and
    leaves the session as it was, whatever [error] object the envelope
    carries.  A non-[nil] error comes out of the challenge step only as the
    transport error or the JSON decoding error of the call. *)
Theorem doChallenge_hides_remote_error `{GoLib} :
  challenge_error_spec Global.cbURL Global.doChallenge
  /\ challenge_error_spec Ctx.cbURL Ctx.doChallenge.
Proof. split; [apply Global_challenge_error | apply Ctx_challenge_error]. Qed.

Lemma doChallenge_hides_remote_error_witness :
  Global.doChallenge (H:=stub_lib) "admin" Global.init
    (mkWorld [RespJSON failing_challenge] [] [])
  = (Ret (false, None), Global.init,
     mkWorld [] [challenge_request "/webservice.php" "admin"] []).
Proof.
  apply (proj1 (proj1 (doChallenge_hides_remote_error (H:=stub_lib)) "admin"
                 Global.init (mkWorld [RespJSON failing_challenge] [] []))
           failing_challenge); reflexivity.
Defined.

(** C3, amended.  For every operation other than the challenge step
    (login, logout, query, listtypes, describe, retrieve, create, update,
    revise, delete, invoke, getRelatedRecords, SetRelation, getLoginPage),
    in both variants: when the operation's own call is answered by an
    envelope with [success = false] and an [error] object holding the
    strings [code] and [message], the operation returns an error whose text
    is exactly [code], then [": "], then [message]. *)
Theorem remote_error_text `{GoLib} :
  remote_error_spec Global.doChallenge Global.exec
  /\ remote_error_spec Ctx.doChallenge Ctx.exec.
Proof. split; [apply Global_remote_error | apply Ctx_remote_error]. Qed.

Lemma remote_error_text_witness :
  exists v s' w',
    Global.exec (H:=stub_lib) (CQuery "select * from Contacts") Global.init
      (mkWorld [RespJSON invalid_session] [] []) = (Ret v, s', w')
    /\ Error <$> err_of v = Some "INVALID_SESSION: bad session".
Proof.
  apply (proj1 (remote_error_text (H:=stub_lib)) (CQuery "select * from Contacts")
           Global.init (mkWorld [RespJSON invalid_session] [] []) invalid_session
           {[ "code" := JStr "INVALID_SESSION"; "message" := JStr "bad session" ]}
           "INVALID_SESSION" "bad session");
    reflexivity.
Defined.

(** C3 as stated fails for the challenge: answered by the envelope
    [{"success":false,"error":{"code":"INVALID_SESSION","message":"bad session"}}],
    the challenge step of [DoLogin] makes it return [false] with a [nil]
    error, so no error text at all. *)
Lemma challenge_error_not_surfaced :
  for_every_lib (fun L =>
    Global.exec (CLogin "admin" "cdYTBpiMR9RfGgO" false) Global.init
      (mkWorld [RespJSON invalid_session] [] [])
    = (Ret (VBool false None), Global.init,
       mkWorld [] [challenge_request "/webservice.php" "admin"] [])
    /\ err_of (VBool false None) = None).
Proof.
  intros L. split; [|reflexivity].
  simpl. unfold bind at 1.
  rewrite (proj2 (proj2 (proj2 (proj2 (Global_challenge_first
             "admin" "cdYTBpiMR9RfGgO" false Global.init
             (mkWorld [RespJSON invalid_session] [] [])))))
           invalid_session); [reflexivity|reflexivity|].
  intros Hs; vm_compute in Hs; discriminate.
Qed.

(** C5, amended.  After a [DoLogin] that returns [false], in both variants:
    [serviceuser], [servicekey], [sessionid], [userid], [cbURL] and the
    column map are as before the call.  When the challenge step failed, the
    whole state is as before the call.  When the challenge succeeded and the
    login call failed, the state is the one the challenge left:
    [servertime], [expiretime] and [token] hold the values of the challenge
    answer. *)
Theorem failed_login_state `{GoLib} :
  failed_login_spec Global.cbConnection Global.cbURL Global.queryRestulColumns
    Global.doChallenge Global.DoLogin
  /\ failed_login_spec (fun s => Ctx.cbConnection (Ctx.cbCtx s)) Ctx.cbURL
       (fun s => Ctx.queryResultColumns (Ctx.cbCtx s)) Ctx.doChallenge Ctx.DoLogin.
Proof. split; [apply Global_failed_login | apply Ctx_failed_login]. Qed.

Lemma failed_login_state_witness :
  sessionid (Global.cbConnection after_failed_login) = ""
  /\ token (Global.cbConnection after_failed_login) = "5bb33aeb2f6e5".
Proof.
  destruct (proj1 (failed_login_state (H:=stub_lib)) "admin" "cdYTBpiMR9RfGgO" true
              Global.init (mkWorld [RespJSON challenge_ok; RespJSON invalid_session] [] [])
              (Some (errors_New "INVALID_SESSION: bad session")) after_failed_login
              (mkWorld [] [challenge_request "/webservice.php" "admin";
                           login_request "/webservice.php" "admin"
                             "5bb33aeb2f6e5cdYTBpiMR9RfGgO"] [])
              eq_refl) as (_ & _ & Hsid & _).
  split; [exact Hsid | reflexivity].
Defined.

(** C5 as stated fails: a challenge that succeeds followed by a login that
    the server refuses makes [DoLogin] return [false], and the session then
    holds the new [servertime], [expiretime] and [token]. *)
Lemma failed_login_changes_session :
  for_every_lib (fun L =>
    Global.DoLogin "admin" "cdYTBpiMR9RfGgO" true Global.init
      (mkWorld [RespJSON challenge_ok; RespJSON invalid_session] [] [])
    = (Ret (false, Some (errors_New "INVALID_SESSION: bad session")),
       after_failed_login,
       mkWorld [] [challenge_request "/webservice.php" "admin";
                   login_request "/webservice.php" "admin"
                     "5bb33aeb2f6e5cdYTBpiMR9RfGgO"] []))
  /\ after_failed_login <> Global.init.
Proof.
  split.
  - intros L. rewrite DoLogin_after_challenge.
    unfold Global.doChallenge. go_unfold. reflexivity.
  - intros Heq. apply (f_equal (fun s => token (Global.cbConnection s))) in Heq.
    discriminate.
Qed.

(** C6.  In both variants [DoQuery] sends, as the [query] value of its
    request, the input trimmed of the spaces and semicolons at both ends and
    followed by [";"]: a text that ends in exactly one semicolon.  The input
    [select * from Contacts] is sent as [select * from Contacts;], and so is
    the input [select * from Contacts;] followed by two spaces. *)
Theorem DoQuery_one_semicolon `{GoLib} :
  query_semicolon_spec Global.cbConnection Global.cbURL Global.DoQuery
  /\ query_semicolon_spec (fun s => Ctx.cbConnection (Ctx.cbCtx s)) Ctx.cbURL
       Ctx.DoQuery.
Proof. split; [apply Global_query_semicolon | apply Ctx_query_semicolon]. Qed.

Lemma DoQuery_one_semicolon_witness :
  strings_Trim "select * from Contacts;  " " ;" +:+ ";" = "select * from Contacts;".
Proof.
  destruct (proj1 (DoQuery_one_semicolon (H:=stub_lib)) "select * from Contacts;  "
              Global.init (mkWorld [] [] [])) as (_ & _ & _ & Hexample).
  exact (Hexample eq_refl).
Defined.

(** C7, amended.  In both variants [GetResultColumns] returns the column
    map; after a successful [DoQuery] whose result list is empty the map is
    empty; after a successful [DoQuery] whose first row is an object with
    [n] keys, the indices [0 .. n-1] of the map hold the key names of that
    row, each once, in the order in which the iteration over the row visits
    them. *)
Theorem GetResultColumns_after_query `{GoLib} :
  result_columns_spec Global.queryRestulColumns Global.DoQuery Global.GetResultColumns
  /\ result_columns_spec (fun s => Ctx.queryResultColumns (Ctx.cbCtx s)) Ctx.DoQuery
       Ctx.GetResultColumns.
Proof.
  split; (split; [by intros [] ?|]).
  - intros query s w dat Hr Hs.
    destruct (Global_query_columns query s w dat Hr Hs) as [Hempty Hrows].
    split; [done|]. intros row rest Hres.
    destruct (Hrows row rest Hres) as (order & s' & w' & Hperm & Hrun & Hcols).
    exists order, s', w'. repeat split; try done.
    intros j Hj. rewrite Hcols. by case_decide.
  - intros query s w dat Hr Hs.
    destruct (Ctx_query_columns query s w dat Hr Hs) as [Hempty Hrows].
    split; [done|]. intros row rest Hres.
    destruct (Hrows row rest Hres) as (order & s' & w' & Hperm & Hrun & Hcols).
    exists order, s', w'. repeat split; try done.
    intros j Hj. rewrite Hcols. by case_decide.
Qed.

Lemma GetResultColumns_after_query_witness :
  exists s' w',
    Global.DoQuery (H:=stub_lib) "select id from Contacts where id=0" logged_in
      (mkWorld [RespJSON no_rows] [] []) = (Ret (JArr [], None), s', w')
    /\ Global.queryRestulColumns s' = ∅.
Proof.
  apply (proj1 (proj2 (proj1 (GetResultColumns_after_query (H:=stub_lib)))
                  "select id from Contacts where id=0" logged_in
                  (mkWorld [RespJSON no_rows] [] []) no_rows eq_refl eq_refl));
    reflexivity.
Defined.

(** C7 as stated fails: the mapping is not stable.  The same answer, with
    rows of the keys [id] and [name], gives the column map
    [{0:"id", 1:"name"}] under one iteration order and [{0:"name", 1:"id"}]
    under another. *)
Lemma column_order_follows_iteration :
  for_every_lib (fun L =>
    (Global.run [CQuery "select id,name from Accounts"; CGetResultColumns]
       logged_in (mkWorld [RespJSON two_columns] [] [[0%nat; 0%nat]])).1.1
    = [Ret (VIface (JArr two_rows) None);
       Ret (VColumns {[ 0 := "id"; 1 := "name" ]})]
    /\ (Global.run [CQuery "select id,name from Accounts"; CGetResultColumns]
          logged_in (mkWorld [RespJSON two_columns] [] [[1%nat; 0%nat]])).1.1
       = [Ret (VIface (JArr two_rows) None);
          Ret (VColumns {[ 0 := "name"; 1 := "id" ]})]).
Proof.
  intros L. split; simpl; unfold Global.DoQuery, Global.GetResultColumns;
    go_unfold; reflexivity.
Qed.

(** The branch of [DoQuery] for a non-empty result never resets the column
    map, as the branch for an empty result does.  A query that returns rows
    with the three columns [firstname], [lastname], [email] is followed by a
    query that returns rows with the two columns [id] and [name].  Whatever
    order the run time iterates in, the column map [GetResultColumns] then
    returns still has an entry at index 2, and it names a column of the
    first query, not of the last one. *)
Theorem GetResultColumns_keeps_old_columns `{GoLib} (choices : list (list nat)) :
  exists r1 r2 cols s' w' c,
    Global.run
      [CQuery "select firstname,lastname,email from Contacts";
       CQuery "select id,name from Accounts";
       CGetResultColumns]
      Global.init (mkWorld [RespJSON three_columns; RespJSON two_columns] [] choices)
    = ([Ret (VIface r1 None); Ret (VIface r2 None); Ret (VColumns cols)], s', w')
    /\ cols !! 2 = Some c
    /\ c ∈ ["firstname"; "lastname"; "email"].
Proof.
  set (w0 := mkWorld [RespJSON three_columns; RespJSON two_columns] [] choices).
  edestruct (DoQuery_rows "select firstname,lastname,email from Contacts"
              Global.init w0 three_columns) as (o1 & w1 & Hp1 & Hq1 & Hpend1 & _);
    [reflexivity..|].
  set (s1 := Global.mkPackage _ _ _) in Hq1.
  edestruct (DoQuery_rows "select id,name from Accounts" s1 w1 two_columns)
    as (o2 & w2 & Hp2 & Hq2 & _ & _);
    [by unfold next_response; rewrite Hpend1|reflexivity..|].
  set (s2 := Global.mkPackage _ _ _) in Hq2.
  assert (length o1 = 3%nat) as Hlen1 by (by rewrite Hp1).
  assert (length o2 = 2%nat) as Hlen2 by (by rewrite Hp2).
  destruct (lookup_lt_is_Some_2 o1 2) as [c Hc]; [lia|].
  eexists _, _, _, _, _, c. split; [|split].
  - simpl. unfold bind at 1. rewrite Hq1. simpl.
    unfold bind at 1. rewrite Hq2. simpl. reflexivity.
  - simpl. rewrite !columns_loop_lookup, Hlen1, Hlen2.
    repeat case_decide; try lia. exact Hc.
  - apply list_elem_of_lookup_2 in Hc. rewrite Hp1 in Hc.
    match type of Hc with
    | _ ∈ ?keys =>
        let l := eval vm_compute in keys in
        replace keys with l in Hc by (vm_compute; reflexivity)
    end.
    apply list_elem_of_In in Hc. apply list_elem_of_In.
    simpl in Hc |- *. intuition.
Qed.

(** C8, amended.  [DoCreate], [DoUpdate] and [DoRevise], in both variants,
    called with a map that is not [nil]: the map marshalled into the
    [element] of the request, which is also what the caller's map holds
    afterwards, has [assigned_user_id] set to the session's [userid] when
    the caller's map lacks the key, and is the caller's map unchanged when
    the key is there; no other entry is modified.  Called with a [nil] map
    they panic on the write and send nothing. *)
Theorem assigned_user_id_default `{GoLib} :
  (owner_default_spec Global.cbConnection Global.cbURL "create" Global.DoCreate
   /\ owner_default_spec Global.cbConnection Global.cbURL "update" Global.DoUpdate
   /\ owner_default_spec Global.cbConnection Global.cbURL "revise" Global.DoRevise)
  /\ (owner_default_spec (fun s => Ctx.cbConnection (Ctx.cbCtx s)) Ctx.cbURL
        "create" Ctx.DoCreate
      /\ owner_default_spec (fun s => Ctx.cbConnection (Ctx.cbCtx s)) Ctx.cbURL
           "update" Ctx.DoUpdate
      /\ owner_default_spec (fun s => Ctx.cbConnection (Ctx.cbCtx s)) Ctx.cbURL
           "revise" Ctx.DoRevise).
Proof.
  split; (split; [|split]).
  - apply Global_create_owner.
  - apply Global_update_owner.
  - apply Global_revise_owner.
  - apply (Ctx_owner_default _ _ _ sim_DoCreate Global_create_owner).
  - apply (Ctx_owner_default _ _ _ sim_DoUpdate Global_update_owner).
  - apply (Ctx_owner_default _ _ _ sim_DoRevise Global_revise_owner).
Qed.

Lemma assigned_user_id_default_witness :
  exists sentmap : gmap string JSON,
    sentmap !! "assigned_user_id" = Some (JStr "19x1")
    /\ sentmap !! "lastname" = Some (JStr "Lovelace").
Proof.
  destruct (proj1 (proj1 (proj1 (assigned_user_id_default (H:=stub_lib))))
              "Contacts" {[ "lastname" := JStr "Lovelace" ]} logged_in
              (mkWorld [] [] []))
    as (sentmap & Habsent & _ & Hother & _).
  exists sentmap. split.
  - rewrite (Habsent eq_refl). reflexivity.
  - rewrite Hother by discriminate. reflexivity.
Defined.

(** C8 as stated fails for a [nil] field map: the key is absent, and the
    write that should set it panics; no request is sent. *)
Lemma nil_valuemap_panics :
  for_every_lib (fun L =>
    Global.DoCreate "Contacts" None logged_in (mkWorld [RespJSON created] [] [])
    = (Panic PanicNilMapWrite, logged_in, mkWorld [RespJSON created] [] [])).
Proof. intros L. reflexivity. Qed.

(** C9, amended.  In both variants [DoDelete] returns [true], with a [nil]
    error, exactly when its call is answered by [success = true] and a
    result object whose [status] is the string ["successful"].  When
    [status] is any other string it returns [false] with the error
    ["Unexpected DELETE error"], a text that no remote error
    [code: message] can have.  When [status] is missing or is not a string
    it panics. *)
Theorem DoDelete_status `{GoLib} :
  (delete_status_spec Global.cbConnection Global.cbURL Global.DoDelete
   /\ delete_status_spec (fun s => Ctx.cbConnection (Ctx.cbCtx s)) Ctx.cbURL
        Ctx.DoDelete)
  /\ (forall code message : string,
        "Unexpected DELETE error" <> code +:+ ": " +:+ message).
Proof.
  split; [split|].
  - apply Global_delete_status.
  - apply Ctx_delete_status.
  - apply delete_error_is_local.
Qed.

Lemma DoDelete_status_witness :
  Global.DoDelete (H:=stub_lib) "12x7" logged_in
    (mkWorld [RespJSON (deleted (JStr "failed"))] [] [])
  = (Ret (false, Some (errors_New "Unexpected DELETE error")), logged_in,
     mkWorld [] [delete_request "/webservice.php" "6f5a0c5a27d1e" "12x7"] []).
Proof.
  apply (proj1 (proj2 (proj1 (proj1 (DoDelete_status (H:=stub_lib))) "12x7" logged_in
                  (mkWorld [RespJSON (deleted (JStr "failed"))] [] [])))
           (deleted (JStr "failed")) {[ "status" := JStr "failed" ]} "failed");
    [reflexivity..|discriminate].
Defined.

(** C9 as stated fails for a [status] that is not a string: answered by
    [{"success":true,"result":{"status":false}}], [DoDelete] does not return
    an error, it panics on the type assertion. *)
Lemma DoDelete_status_not_a_string :
  for_every_lib (fun L =>
    Global.DoDelete "12x7" logged_in
      (mkWorld [RespJSON (deleted (JBool false))] [] [])
    = (Panic PanicTypeAssertion, logged_in,
       mkWorld [] [delete_request "/webservice.php" "6f5a0c5a27d1e" "12x7"] [])).
Proof.
  intros L. unfold Global.DoDelete. go_unfold. reflexivity.
Qed.

(** C10.  The context of [GetCbContext] stands for the initial package
    state, and from any context and the package state it stands for, any
    sequence of calls (the challenge step, login, logout, query, the column
    map, listtypes, describe, retrieve, create, update, revise, delete,
    invoke, getRelatedRecords, SetRelation, getLoginPage, SetURL) against
    any sequence of server answers gives the same results and errors in
    both variants, sends the same requests, leaves the same answers
    pending, and ends in corresponding states. *)
Theorem context_variant_equivalent `{GoLib} (calls : list Call) (c : Ctx.State)
    (w : World) :
  abs Ctx.init = Global.init
  /\ (let '(outs_g, s_g, w_g) := Global.run calls (abs c) w in
      let '(outs_c, s_c, w_c) := Ctx.run calls c w in
      outs_c = outs_g /\ abs s_c = s_g /\ sent w_c = sent w_g /\ w_c = w_g).
Proof.
  split; [reflexivity|]. rewrite sim_run.
  destruct (Global.run calls (abs c) w) as [[outs s] w'].
  by rewrite abs_conc.
Qed.

(** * Further properties *)

(** What C2 says of the two modes.  Once the challenge has succeeded, in
    both variants [DoLogin] sends exactly two requests, the challenge and
    the login; the login request carries [operation = login], the user
    name, and as [accessKey] the token of the challenge followed by
    [userAccesskey], verbatim when [withpassword] is set and through
    [getMD5Hash] when it is not. *)
Theorem login_access_key `{GoLib} :
  access_key_spec Global.cbConnection Global.cbURL Global.doChallenge Global.DoLogin
  /\ access_key_spec (fun s => Ctx.cbConnection (Ctx.cbCtx s)) Ctx.cbURL
       Ctx.doChallenge Ctx.DoLogin.
Proof. split; [apply Global_access_key | apply Ctx_access_key]. Qed.

Lemma login_access_key_witness :
  sent (Global.DoLogin (H:=stub_lib) "admin" "cdYTBpiMR9RfGgO" true Global.init
          (mkWorld [RespJSON challenge_ok; RespJSON invalid_session] [] [])).2
  = [challenge_request "/webservice.php" "admin";
     login_request "/webservice.php" "admin" "5bb33aeb2f6e5cdYTBpiMR9RfGgO"].
Proof.
  apply (proj1 (proj1 (login_access_key (H:=stub_lib)) "admin" "cdYTBpiMR9RfGgO" true
                  Global.init after_failed_login
                  (mkWorld [RespJSON challenge_ok; RespJSON invalid_session] [] [])
                  (mkWorld [RespJSON invalid_session]
                     [challenge_request "/webservice.php" "admin"] [])
                  eq_refl)).
Defined.

(** [getMD5Hash] returns 32 lowercase hexadecimal digits, whatever the
    text.  So the access keys of the two modes differ whenever the token
    followed by the key is not itself such a text. *)
Theorem access_keys_differ `{GoLib} (tok userAccesskey : string) :
  is_hex_digest (getMD5Hash (tok +:+ userAccesskey)) = true
  /\ (is_hex_digest (tok +:+ userAccesskey) = false ->
      tok +:+ userAccesskey <> getMD5Hash (tok +:+ userAccesskey)).
Proof.
  split; [apply getMD5Hash_hex_digest|].
  intros Hplain Heq. rewrite Heq, getMD5Hash_hex_digest in Hplain. discriminate.
Qed.

Lemma access_keys_differ_witness :
  "5bb33aeb2f6e5" +:+ "cdYTBpiMR9RfGgO"
  <> getMD5Hash (H:=stub_lib) ("5bb33aeb2f6e5" +:+ "cdYTBpiMR9RfGgO").
Proof.
  exact (proj2 (access_keys_differ (H:=stub_lib) "5bb33aeb2f6e5" "cdYTBpiMR9RfGgO")
           eq_refl).
Defined.

(** * Further properties of the operations *)

(** ** Traffic and footprint *)

Section Traffic.
Context `{GoLib}.

Ltac exec_unfold :=
  simpl;
  unfold Global.SetURL, Global.DoLogout,
    Global.DoQuery, Global.GetResultColumns, Global.DoListTypes,
    Global.DoDescribe, Global.DoRetrieve, Global.DoCreate, Global.DoUpdate,
    Global.DoRevise, Global.DoDelete, Global.DoInvoke,
    Global.DoGetRelatedRecords, Global.DoSetRelated, Global.DoLoginPage;
  go_unfold.

Lemma doChallenge_footprint username s w :
  Global.cbURL (Global.doChallenge username s w).1.2 = Global.cbURL s
  /\ Global.queryRestulColumns (Global.doChallenge username s w).1.2
     = Global.queryRestulColumns s.
Proof.
  unfold Global.doChallenge. go_unfold. go_cases.
Qed.

Lemma Global_footprint :
  footprint_spec Global.cbConnection Global.cbURL Global.queryRestulColumns Global.exec.
Proof.
  intros call s w s'. subst s'.
  destruct call;
    try (exec_unfold; repeat case_match; simplify_eq; simpl; auto; fail).
  - simpl. unfold bind.
    pose proof (doChallenge_footprint username s w) as Hf.
    destruct (Global.doChallenge username s w) as [[[[ok err]|p] s1] w1]; exact Hf.
  - simpl. unfold bind. rewrite DoLogin_after_challenge.
    pose proof (doChallenge_footprint username s w) as Hf.
    destruct (Global.doChallenge username s w) as [[[[[] err]|p] s1] w1];
      simpl in *; try done. go_cases.
Qed.

Lemma drop_1_tail {A} (l : list A) : drop 1 l = tail l.
Proof. by destruct l. Qed.

Lemma drop_2_tail {A} (l : list A) : drop 2 l = tail (tail l).
Proof. by destruct l as [|? []]. Qed.

Ltac traffic_none :=
  solve [exists []; rewrite app_nil_r, drop_0; repeat split; simpl; auto with lia].
Ltac traffic_one :=
  solve [eexists [_]; rewrite drop_1_tail; repeat split; simpl; auto with lia].

Lemma Global_traffic : traffic_spec Global.cbURL Global.exec.
Proof.
  intros call s w.
  destruct call;
    try (exec_unfold; repeat case_match; simplify_eq; simpl;
         first [traffic_one | traffic_none]).
  - simpl. unfold bind.
    destruct (doChallenge_sends username s w) as (r & s1 & -> & _).
    destruct r as [[ok err]|p]; simpl; traffic_one.
  - simpl. unfold bind. rewrite DoLogin_after_challenge.
    destruct (doChallenge_sends username s w) as (r & s1 & -> & Hurl).
    destruct r as [[[] err]|p]; simpl; try traffic_one.
    rewrite Hurl.
    go_cases; (eexists [_; _]; rewrite drop_2_tail, <- app_assoc;
               repeat split; simpl; auto with lia).
Qed.

End Traffic.
Section TrafficCtx.
Context `{GoLib}.

Lemma sim_state_eq {A} (mg : M Global.Package A) (mc : M Ctx.State A) :
  simM mg mc -> forall c w, (mc c w).1.2 = conc (mg (abs c) w).1.2.
Proof. intros Hsim c w. rewrite Hsim. by destruct (mg (abs c) w) as [[r s] w']. Qed.

Lemma Ctx_traffic : traffic_spec Ctx.cbURL Ctx.exec.
Proof.
  intros call c w. rewrite (sim_world_eq _ _ (sim_exec call)).
  apply (Global_traffic call (abs c) w).
Qed.

Lemma Ctx_footprint :
  footprint_spec (fun s => Ctx.cbConnection (Ctx.cbCtx s)) Ctx.cbURL
    (fun s => Ctx.queryResultColumns (Ctx.cbCtx s)) Ctx.exec.
Proof.
  intros call c w s'. subst s'. rewrite (sim_state_eq _ _ (sim_exec call)).
  pose proof (Global_footprint call (abs c) w) as Hf. simpl in Hf.
  destruct call; simpl in *;
    first [exact Hf | by rewrite Hf, conc_abs | apply conc_abs].
Qed.

(** A run of calls: what the calls send adds up. *)
Lemma Global_run_traffic (calls : list Call) s w :
  exists reqs : list Request,
    sent (Global.run calls s w).2 = sent w ++ reqs
    /\ pending (Global.run calls s w).2 = drop (length reqs) (pending w)
    /\ (length reqs <= sum_list (max_requests <$> calls))%nat.
Proof.
  revert s w. induction calls as [|call calls IH]; intros s w; simpl.
  - exists []. by rewrite app_nil_r.
  - destruct (Global_traffic call s w) as (r1 & Hs1 & Hp1 & Hl1 & _).
    destruct (Global.exec call s w) as [[[v|p] s1] w1]; simpl in *.
    + destruct (IH s1 w1) as (r2 & Hs2 & Hp2 & Hl2).
      destruct (Global.run calls s1 w1) as [[outs s2] w2]; simpl in *.
      exists (r1 ++ r2). rewrite Hs2, Hs1, Hp2, Hp1, length_app, drop_drop.
      split; [by rewrite app_assoc|]. split; [done|].
      apply Nat.add_le_mono; [exact Hl1 | exact Hl2].
    + exists r1. repeat split; auto.
      etrans; [exact Hl1 | apply Nat.le_add_r].
Qed.

End TrafficCtx.
Section Failure.
Context `{GoLib}.

Lemma is_true_not_success (dat : gmap string JSON) :
  dat !! "success" <> Some (JBool true) -> is_true (dat !! "success") = false.
Proof. by destruct (dat !! "success") as [[| [] | | | |]|]. Qed.

Ltac ops_unfold :=
  simpl;
  unfold Global.SetURL, Global.DoLogout,
    Global.DoQuery, Global.GetResultColumns, Global.DoListTypes,
    Global.DoDescribe, Global.DoRetrieve, Global.DoCreate, Global.DoUpdate,
    Global.DoRevise, Global.DoDelete, Global.DoInvoke,
    Global.DoGetRelatedRecords, Global.DoSetRelated, Global.DoLoginPage;
  go_unfold.

Lemma Global_failure : failure_spec Global.doChallenge Global.exec.
Proof.
  intros call s s0 w r Ha.
  destruct call; simpl in Ha; try contradiction.
  (* the challenge *)
  1: { destruct Ha as [-> Hr]. split.
       - intros e [->| ->]; simpl; unfold Global.doChallenge; go_unfold;
           rewrite Hr; simpl; eexists _, _; by repeat split.
       - intros dat -> Hs. apply is_true_not_success in Hs.
         simpl; unfold Global.doChallenge; go_unfold.
         rewrite Hr; simpl. rewrite Hs; simpl. by eexists. }
  (* the login *)
  1: { destruct Ha as (w1 & Hch & Hr). split.
       - intros e [->| ->]; simpl; unfold bind;
           rewrite DoLogin_after_challenge, Hch; simpl; rewrite Hr;
           eexists _, _; by repeat split.
       - intros dat -> Hs. apply is_true_not_success in Hs.
         simpl; unfold bind. rewrite DoLogin_after_challenge, Hch; simpl.
         rewrite Hr, Hs. destruct (wsError dat); simpl; [|by eexists].
         eexists _, _; by repeat split. }
  (* the operations with one plain request *)
  all: try (destruct Ha as [-> Hr]; split;
    [ intros e [->| ->]; ops_unfold; rewrite Hr; simpl;
      eexists _, _; by repeat split
    | intros dat -> Hs; apply is_true_not_success in Hs;
      ops_unfold; rewrite Hr; simpl; rewrite Hs; simpl;
      destruct (wsError dat); simpl; [eexists _, _; by repeat split | by eexists] ]).
  (* the writing operations *)
  all: try (destruct Ha as (Hnil & -> & Hr); destruct valuemap as [m|]; [|done];
    split;
    [ intros e [->| ->]; ops_unfold; destruct (m !! "assigned_user_id"); simpl;
      rewrite Hr; simpl; eexists _, _; by repeat split
    | intros dat -> Hs; apply is_true_not_success in Hs;
      ops_unfold; destruct (m !! "assigned_user_id"); simpl;
      rewrite Hr; simpl; rewrite Hs; simpl;
      (destruct (wsError dat); simpl; [eexists _, _; by repeat split | by eexists]) ]).
  (* DoInvoke *)
  destruct Ha as (Hstr & -> & Hr).
  edestruct (invoke_loop_strings
               (shuffle (hd [] (mapiter w)) (map_to_list (gomap_read params))))
    as [v' Hloop].
  { apply Forall_forall. intros [k x] Hin. simpl.
    apply (Hstr k). by apply (range_map_entries _ w). }
  split.
  - intros e He. ops_unfold. rewrite Hloop.
    unfold next_response in *; simpl.
    destruct He as [->| ->]; rewrite Hr; simpl; eexists _, _; by repeat split.
  - intros dat -> Hs. apply is_true_not_success in Hs.
    ops_unfold. rewrite Hloop. unfold next_response in *; simpl.
    rewrite Hr; simpl. rewrite Hs; simpl.
    destruct (wsError dat); simpl; [eexists _, _; by repeat split | by eexists].
Qed.


Lemma Ctx_failure : failure_spec Ctx.doChallenge Ctx.exec.
Proof.
  intros call c c0 w r Ha.
  assert (answered_with Global.doChallenge call (abs c) w (abs c0) r) as Hg.
  { destruct call; simpl in *; try done;
      try (by destruct Ha as [-> ?]);
      try (by destruct Ha as (? & -> & ?)).
    destruct Ha as (w1 & Hch & Hr). exists w1. split; [|done].
    by apply (sim_inv _ _ (sim_doChallenge username)). }
  assert (forall v w', Global.exec call (abs c) w = (v, abs c0, w') ->
                       Ctx.exec call c w = (v, c0, w')) as Hback.
  { intros v w' Hrun. by apply (sim_inv _ _ (sim_exec call)). }
  destruct (Global_failure call (abs c) (abs c0) w r Hg) as [Herr Hko].
  split.
  - intros e He. destruct (Herr e He) as (v & w' & Hrun & Hrest).
    exists v, w'. split; [by apply Hback|done].
  - intros dat Hr Hs. specialize (Hko dat Hr Hs).
    destruct call; simpl in Hg; try contradiction;
      first
        [ destruct (wsError dat);
          [ destruct Hko as (v & w' & Hrun & Hrest); exists v, w';
            split; [by apply Hback|done]
          | destruct Hko as (w' & Hrun); exists w'; by apply Hback ]
        | destruct Hko as (w' & Hrun); exists w'; by apply Hback ].
Qed.

End Failure.
Section LoginSuccess.
Context `{GoLib}.

Lemma Global_challenge_success :
  challenge_success_spec Global.cbConnection Global.cbURL Global.queryRestulColumns
    Global.doChallenge.
Proof.
  intros username s w. cbv zeta. split.
  - intros dat rdo st et tk Hr Hs Hres Hst Het Htk.
    eexists. split.
    + unfold Global.doChallenge. go_unfold. rewrite Hr; simpl.
      rewrite Hs, Hres; simpl. rewrite Hst, Het, Htk; simpl. reflexivity.
    + by repeat split.
  - intros err s' w' Hrun.
    apply doChallenge_true_inv in Hrun
      as (-> & -> & dat & rdo & st & et & tk & Hr & Hs & Hres & Hst & Het & Htk & ->).
    repeat split. exists dat, rdo, st, et, tk. by repeat split.
Qed.

Lemma assert_string_not (x : option JSON) :
  (forall str, x <> Some (JStr str)) -> assert_string x = Panic PanicTypeAssertion.
Proof. intros Hx. destruct x as [[| | |str| |]|]; try done. by destruct (Hx str). Qed.

Lemma Global_login_success :
  login_success_spec Global.cbConnection Global.cbURL Global.queryRestulColumns
    Global.doChallenge Global.DoLogin.
Proof.
  intros username userAccesskey withpassword s w. cbv zeta. split.
  - intros s1 w1 dat rdo sid uid (Hch & Hr & Hs & Hres & Hsid & Huid).
    rewrite DoLogin_after_challenge, Hch; simpl. rewrite Hr, Hs, Hres; simpl.
    rewrite Hsid, Huid; simpl. eexists _, _. split; [reflexivity|].
    apply doChallenge_true_inv in Hch as (_ & _ & ? & ? & ? & ? & ? & _ & _ & _ & _ & _ & _ & ->).
    by repeat split.
  - intros err s' w'. rewrite DoLogin_after_challenge.
    destruct (Global.doChallenge username s w) as [[[[[] e]|p] s1] w1] eqn:Hch;
      [|discriminate..].
    pose proof Hch as Hch'.
    apply doChallenge_true_inv in Hch' as (-> & _ & ? & ? & ? & ? & ? & _ & _ & _ & _ & _ & _ & Hs1).
    simpl.
    destruct (next_response w1) as [e1|e1|dat] eqn:Hr; try discriminate.
    destruct (is_true (dat !! "success")) eqn:Hs;
      [|destruct (wsError dat); discriminate].
    destruct (assert_map (dat !! "result")) as [rdo|] eqn:Hres; [|discriminate].
    destruct (assert_string (rdo !! "sessionName")) as [sid|] eqn:Hsid; [|discriminate].
    destruct (assert_string (rdo !! "userId")) as [uid|] eqn:Huid; [|discriminate].
    intros [= <- <- <-]. split; [done|].
    exists s1, w1, dat, rdo, sid, uid. split.
    + repeat split; auto using is_true_inv, assert_map_inv, assert_string_inv.
    + subst s1. by repeat split.
Qed.

Lemma Global_login_panic :
  login_panic_spec Global.cbConnection Global.doChallenge Global.DoLogin.
Proof.
  intros username userAccesskey withpassword s s1 w w1 dat rdo Hch Hr Hs Hres Hsid.
  rewrite DoLogin_after_challenge, Hch; simpl. rewrite Hr, Hs, Hres; simpl.
  rewrite (assert_string_not _ Hsid). eexists _, _. split; [reflexivity|].
  by repeat split.
Qed.

Lemma Ctx_challenge_success :
  challenge_success_spec (fun s => Ctx.cbConnection (Ctx.cbCtx s)) Ctx.cbURL
    (fun s => Ctx.queryResultColumns (Ctx.cbCtx s)) Ctx.doChallenge.
Proof.
  intros username c w. cbv zeta.
  destruct (Global_challenge_success username (abs c) w) as [Hok Hinv]. split.
  - intros dat rdo st et tk Hr Hs Hres Hst Het Htk.
    destruct (Hok dat rdo st et tk Hr Hs Hres Hst Het Htk) as (s' & Hrun & Hstored).
    exists (conc s'). split; [|exact Hstored].
    apply (sim_inv _ _ (sim_doChallenge username)). by rewrite abs_conc.
  - intros err c' w' Hrun.
    apply (sim_inv _ _ (sim_doChallenge username)) in Hrun.
    exact (Hinv err (abs c') w' Hrun).
Qed.

Lemma Ctx_login_success :
  login_success_spec (fun s => Ctx.cbConnection (Ctx.cbCtx s)) Ctx.cbURL
    (fun s => Ctx.queryResultColumns (Ctx.cbCtx s)) Ctx.doChallenge Ctx.DoLogin.
Proof.
  intros username userAccesskey withpassword c w. cbv zeta.
  destruct (Global_login_success username userAccesskey withpassword (abs c) w)
    as [Hok Hinv].
  split.
  - intros c1 w1 dat rdo sid uid (Hch & Hrest).
    apply (sim_inv _ _ (sim_doChallenge username)) in Hch.
    destruct (Hok (abs c1) w1 dat rdo sid uid (conj Hch Hrest))
      as (s' & w' & Hrun & Hstored).
    exists (conc s'), w'. split; [|exact Hstored].
    apply (sim_inv _ _ (sim_DoLogin username userAccesskey withpassword)).
    by rewrite abs_conc.
  - intros err c' w' Hrun.
    apply (sim_inv _ _ (sim_DoLogin username userAccesskey withpassword)) in Hrun.
    destruct (Hinv err (abs c') w' Hrun)
      as (-> & s1 & w1 & dat & rdo & sid & uid & (Hch & Hrest) & Hstored).
    split; [done|]. exists (conc s1), w1, dat, rdo, sid, uid.
    split; [|exact Hstored]. split; [|exact Hrest].
    apply (sim_inv _ _ (sim_doChallenge username)). by rewrite abs_conc.
Qed.

Lemma Ctx_login_panic :
  login_panic_spec (fun s => Ctx.cbConnection (Ctx.cbCtx s)) Ctx.doChallenge
    Ctx.DoLogin.
Proof.
  intros username userAccesskey withpassword c c1 w w1 dat rdo Hch Hr Hs Hres Hsid.
  apply (sim_inv _ _ (sim_doChallenge username)) in Hch.
  destruct (Global_login_panic username userAccesskey withpassword (abs c) (abs c1)
              w w1 dat rdo Hch Hr Hs Hres Hsid) as (s' & w' & Hrun & Hrest).
  exists (conc s'), w'. split; [|exact Hrest].
  apply (sim_inv _ _ (sim_DoLogin username userAccesskey withpassword)).
  by rewrite abs_conc.
Qed.

End LoginSuccess.
Section Requests.
Context `{GoLib}.

Ltac ops_unfold :=
  simpl;
  unfold Global.SetURL, Global.DoLogout,
    Global.DoQuery, Global.GetResultColumns, Global.DoListTypes,
    Global.DoDescribe, Global.DoRetrieve, Global.DoCreate, Global.DoUpdate,
    Global.DoRevise, Global.DoDelete, Global.DoInvoke,
    Global.DoGetRelatedRecords, Global.DoSetRelated, Global.DoLoginPage;
  go_unfold.

Lemma Global_session_request :
  session_request_spec Global.cbConnection Global.cbURL Global.exec.
Proof.
  intros call s w Hcall.
  destruct call; simpl in Hcall; try contradiction;
    try (destruct valuemap as [m|]; [|done]);
    ops_unfold; repeat case_match; simplify_eq; simpl;
    eexists; (split; [reflexivity|by repeat split]).
Qed.

Lemma Global_run_footprint :
  run_footprint_spec Global.cbConnection Global.cbURL Global.queryRestulColumns
    Global.run.
Proof.
  intros calls. induction calls as [|call calls IH]; intros s w; [done|].
  pose proof (Global_footprint call s w) as Hf. simpl in Hf. simpl.
  destruct (Global.exec call s w) as [[[v|p] s1] w1]; simpl in *.
  - specialize (IH s1 w1). simpl in IH. destruct IH as (IHc & IHu & IHq).
    destruct (Global.run calls s1 w1) as [[outs s2] w2]; simpl in *.
    repeat split; intros Hall; apply Forall_cons in Hall as [Hcall Hall].
    + rewrite (IHc Hall). destruct call; try contradiction; by destruct_and?; subst.
    + rewrite (IHu Hall). destruct call; try contradiction; by destruct_and?; subst.
    + rewrite (IHq Hall). destruct call; try contradiction; by destruct_and?; subst.
  - repeat split; intros Hall; apply Forall_cons in Hall as [Hcall Hall];
      destruct call; try contradiction; by destruct_and?; subst.
Qed.

Lemma Ctx_session_request :
  session_request_spec (fun s => Ctx.cbConnection (Ctx.cbCtx s)) Ctx.cbURL Ctx.exec.
Proof.
  intros call c w Hcall. rewrite (sim_world_eq _ _ (sim_exec call)).
  apply (Global_session_request call (abs c) w Hcall).
Qed.

Lemma Ctx_run_footprint :
  run_footprint_spec (fun s => Ctx.cbConnection (Ctx.cbCtx s)) Ctx.cbURL
    (fun s => Ctx.queryResultColumns (Ctx.cbCtx s)) Ctx.run.
Proof.
  intros calls c w. cbv zeta. rewrite sim_run.
  pose proof (Global_run_footprint calls (abs c) w) as Hf. cbv zeta in Hf.
  by destruct (Global.run calls (abs c) w) as [[outs s'] w'].
Qed.

Lemma Ctx_run_traffic (calls : list Call) c w :
  exists reqs : list Request,
    sent (Ctx.run calls c w).2 = sent w ++ reqs
    /\ pending (Ctx.run calls c w).2 = drop (length reqs) (pending w)
    /\ (length reqs <= sum_list (max_requests <$> calls))%nat.
Proof.
  rewrite sim_run. pose proof (Global_run_traffic calls (abs c) w) as Ht.
  by destruct (Global.run calls (abs c) w) as [[outs s'] w'].
Qed.

End Requests.
Section ListTypes.
Context `{GoLib}.

Lemma listTypes_loop_names (names : list string) (acc : gmap string string) :
  exists types,
    listTypes_loop (JStr <$> names) acc = Ret types
    /\ forall k, types !! k = if decide (k ∈ names) then Some k else acc !! k.
Proof.
  revert acc. induction names as [|name names IH]; intros acc; simpl.
  - exists acc. split; [done|]. intros k.
    destruct (decide (k ∈ [])) as [Hin|]; [by apply elem_of_nil in Hin|done].
  - destruct (IH (<[name := name]> acc)) as (types & Hloop & Hlook).
    exists types. split; [exact Hloop|]. intros k. rewrite Hlook.
    destruct (decide (k ∈ names)) as [Hin|Hnin].
    + rewrite decide_True by (apply elem_of_cons; auto). done.
    + destruct (decide (k = name)) as [->|Hne].
      * rewrite lookup_insert_eq, decide_True by (apply elem_of_cons; auto). done.
      * rewrite lookup_insert_ne by done. rewrite decide_False; [done|].
        rewrite elem_of_cons. by intros [?|?].
Qed.

Lemma listTypes_loop_panics (mods : list JSON) (acc : gmap string string) :
  (exists x, x ∈ mods /\ forall name, x <> JStr name) ->
  listTypes_loop mods acc = Panic PanicTypeAssertion.
Proof.
  revert acc. induction mods as [|m mods IH]; intros acc (x & Hin & Hx).
  - by apply elem_of_nil in Hin.
  - apply elem_of_cons in Hin as [->|Hin].
    + simpl. destruct m; try done. by destruct (Hx s).
    + simpl. destruct m; try done. apply IH. eauto.
Qed.

Lemma Global_list_types :
  list_types_spec Global.cbConnection Global.cbURL Global.DoListTypes.
Proof.
  intros fieldTypeList s w dat rdo mods Hr Hs Hres Htypes. cbv zeta. split.
  - intros names ->.
    destruct (listTypes_loop_names names ∅) as (types & Hloop & Hlook).
    exists types. split.
    + unfold Global.DoListTypes. go_unfold. rewrite Hr; simpl.
      rewrite Hs, Hres; simpl. rewrite Htypes; simpl. by rewrite Hloop.
    + intros k v. rewrite Hlook. case_decide.
      * split; [by intros [= <-]|by intros [-> _]].
      * rewrite lookup_empty. split; [done|by intros [_ ?]].
  - intros Hbad. unfold Global.DoListTypes. go_unfold. rewrite Hr; simpl.
    rewrite Hs, Hres; simpl. rewrite Htypes; simpl.
    by rewrite (listTypes_loop_panics _ _ Hbad).
Qed.

Lemma Ctx_list_types :
  list_types_spec (fun s => Ctx.cbConnection (Ctx.cbCtx s)) Ctx.cbURL Ctx.DoListTypes.
Proof.
  intros fieldTypeList c w dat rdo mods Hr Hs Hres Htypes. cbv zeta.
  destruct (Global_list_types fieldTypeList (abs c) w dat rdo mods Hr Hs Hres Htypes)
    as [Hok Hbad].
  split.
  - intros names Hnames. destruct (Hok names Hnames) as (types & Hrun & Hlook).
    exists types. split; [|done].
    by apply (sim_inv _ _ (sim_DoListTypes fieldTypeList)).
  - intros Hx. apply (sim_inv _ _ (sim_DoListTypes fieldTypeList)). by apply Hbad.
Qed.

End ListTypes.
